(** * dstclient.api: the unified ticker / forum client

    A shallow embedding of [src/dstclient/api.py] (class [DerStandardAPI]):
    the decoded JSON documents the client traverses, the Python operations it
    applies to them, the HTTP exchange as an explicit request log, the three
    public read operations [get_ticker_threads], [get_thread_postings] and
    [get_forum_postings] with the query text of the last, and the consent
    dialogue of [update_cookies] as a log of calls to the browser. *)

From Stdlib Require Import ZArith List String Ascii Bool Lia Permutation.
Import ListNotations.
Local Open Scope string_scope.
Local Open Scope Z_scope.
Local Open Scope list_scope.
Set Warnings "-register-all".

(** ** Python values *)

(** What [resp.json()] hands to the client: [None], booleans, integers,
    strings, lists and dicts.  A dict keeps its entries in insertion order and
    is read by key, first entry first.  Numbers with a fractional part are not
    modelled. *)
Inductive value : Type :=
| VNone
| VBool (b : bool)
| VInt (n : Z)
| VStr (s : string)
| VList (items : list value)
| VDict (entries : list (string * value)).

(** Exceptions the code can let escape.  [KeyError] carries the key,
    [ParserError] is dateutil's, [ClientError] stands for a transport failure
    raised inside [session.get]. *)
Inductive exn : Type :=
| KeyError (key : value)
| IndexError
| TypeError
| AttributeError
| ValueError
| ParserError
| OverflowError
| ClientError.

Definition exn_name (e : exn) : string :=
  match e with
  | KeyError _ => "KeyError"
  | IndexError => "IndexError"
  | TypeError => "TypeError"
  | AttributeError => "AttributeError"
  | ValueError => "ValueError"
  | ParserError => "ParserError"
  | OverflowError => "OverflowError"
  | ClientError => "ClientError"
  end.

Inductive result (A : Type) : Type :=
| Return (a : A)
| Raise (e : exn).
Arguments Return {A} a.
Arguments Raise {A} e.

Definition bind {A B : Type} (r : result A) (k : A -> result B) : result B :=
  match r with
  | Return a => k a
  | Raise e => Raise e
  end.

Declare Scope py_scope.
Delimit Scope py_scope with py.
Notation "x <- c ;; k" := (bind c (fun x => k))
  (at level 61, c at next level, right associativity) : py_scope.
Local Open Scope py_scope.

(** A comprehension [[f(x) for x in xs]]: elements in order, the first
    exception aborts the whole list. *)
Fixpoint mapM {A B : Type} (f : A -> result B) (xs : list A) : result (list B) :=
  match xs with
  | [] => Return []
  | x :: xs' =>
      y <- f x ;;
      ys <- mapM f xs' ;;
      Return (y :: ys)
  end.

(** A comprehension with a condition, [[f(x) for x in xs if c(x)]]: the
    condition of an element is evaluated just before its expression. *)
Fixpoint filterMapM {A B : Type} (c : A -> result bool) (f : A -> result B)
  (xs : list A) : result (list B) :=
  match xs with
  | [] => Return []
  | x :: xs' =>
      keep <- c x ;;
      if keep : bool then
        y <- f x ;;
        ys <- filterMapM c f xs' ;;
        Return (y :: ys)
      else filterMapM c f xs'
  end.

(** Truth value of an object ([while page["p"]], [x or None], [if skip_to]). *)
Definition truthy (v : value) : bool :=
  match v with
  | VNone => false
  | VBool b => b
  | VInt n => negb (n =? 0)
  | VStr s => negb (String.eqb s EmptyString)
  | VList l => match l with [] => false | _ => true end
  | VDict d => match d with [] => false | _ => true end
  end.

(** [x or None] *)
Definition or_none (v : value) : value :=
  if truthy v then v else VNone.

Fixpoint lookup (k : string) (d : list (string * value)) : option value :=
  match d with
  | [] => None
  | (k', v) :: d' => if String.eqb k k' then Some v else lookup k d'
  end.

Fixpoint chars (s : string) : list value :=
  match s with
  | EmptyString => []
  | String c s' => VStr (String c EmptyString) :: chars s'
  end.

(** Sequence indexing with Python's negative indices. *)
Definition index {A : Type} (l : list A) (i : Z) : result A :=
  let n := Z.of_nat (List.length l) in
  let j := if i <? 0 then i + n else i in
  if (j <? 0) || (n <=? j) then Raise IndexError
  else match nth_error l (Z.to_nat j) with
       | Some x => Return x
       | None => Raise IndexError
       end.

(** Subscription [o[k]] for the keys the client uses: a string or an
    integer. *)
Definition getitem (o k : value) : result value :=
  match o, k with
  | VDict d, VStr s =>
      match lookup s d with
      | Some v => Return v
      | None => Raise (KeyError k)
      end
  | VDict _, (VInt _ | VBool _ | VNone) => Raise (KeyError k)
  | VList l, VInt i => index l i
  | VList l, VBool b => index l (Z.b2z b)
  | VStr s, VInt i => index (chars s) i
  | VStr s, VBool b => index (chars s) (Z.b2z b)
  | _, _ => Raise TypeError
  end.

Definition subscript (o : value) (k : string) : result value :=
  getitem o (VStr k).

Notation "o .[ k ]" := (subscript o k) (at level 1, format "o .[ k ]") : py_scope.

(** [o.get(k)]: only dicts have the method. *)
Definition get (o : value) (k : string) : result value :=
  match o with
  | VDict d =>
      match lookup k d with
      | Some v => Return v
      | None => Return VNone
      end
  | _ => Raise AttributeError
  end.

(** Iteration ([for e in o], [list.extend(o)]): a list yields its items, a
    string its characters, a dict its keys. *)
Definition iter (o : value) : result (list value) :=
  match o with
  | VList l => Return l
  | VStr s => Return (chars s)
  | VDict d => Return (map (fun kv => VStr (fst kv)) d)
  | _ => Raise TypeError
  end.

(** [a == b] *)
Fixpoint py_eq (a b : value) {struct a} : bool :=
  match a, b with
  | VNone, VNone => true
  | VBool x, VBool y => Bool.eqb x y
  | VBool x, VInt y => Z.b2z x =? y
  | VInt x, VBool y => x =? Z.b2z y
  | VInt x, VInt y => x =? y
  | VStr x, VStr y => String.eqb x y
  | VList xs, VList ys =>
      (fix all2 (xs ys : list value) {struct xs} : bool :=
         match xs, ys with
         | [], [] => true
         | x :: xs', y :: ys' => py_eq x y && all2 xs' ys'
         | _, _ => false
         end) xs ys
  | VDict xs, VDict ys =>
      (List.length xs =? List.length ys)%nat &&
      (fix sub (xs : list (string * value)) : bool :=
         match xs with
         | [] => true
         | (k, v) :: xs' =>
             (fix find (ys : list (string * value)) : bool :=
                match ys with
                | [] => false
                | (k', v') :: ys' =>
                    if String.eqb k k' then py_eq v v' else find ys'
                end) ys && sub xs'
         end) xs
  | _, _ => false
  end.

(** Objects usable as dict keys; lists and dicts are unhashable. *)
Definition hashable (v : value) : bool :=
  match v with
  | VList _ | VDict _ => false
  | _ => true
  end.

(** Dict-key identity for hashable objects: equal hash and [==]. *)
Definition key_eq (a b : value) : bool := py_eq a b.

(** ** Timestamps *)

(** A [datetime.datetime]: the wall-clock fields and the attached zone, kept
    as its UTC offset in seconds ([None] for a naive value). *)
Record datetime : Type := mkdatetime {
  year : Z; month : Z; day : Z;
  hour : Z; minute : Z; second : Z; microsecond : Z;
  tzinfo : option Z
}.

Definition _is_leap (y : Z) : bool :=
  (y mod 4 =? 0) && (negb (y mod 100 =? 0) || (y mod 400 =? 0)).

Definition _days_before_year (y : Z) : Z :=
  let y := y - 1 in y * 365 + y / 4 - y / 100 + y / 400.

Definition _DAYS_IN_MONTH (m : Z) : Z :=
  nth (Z.to_nat m) [-1; 31; 28; 31; 30; 31; 30; 31; 31; 30; 31; 30; 31] (-1).

Definition _DAYS_BEFORE_MONTH (m : Z) : Z :=
  nth (Z.to_nat m) [-1; 0; 31; 59; 90; 120; 151; 181; 212; 243; 273; 304; 334] (-1).

Definition _days_in_month (y m : Z) : Z :=
  if (m =? 2) && _is_leap y then 29 else _DAYS_IN_MONTH m.

Definition _days_before_month (y m : Z) : Z :=
  _DAYS_BEFORE_MONTH m + Z.b2z ((2 <? m) && _is_leap y).

Definition _ymd2ord (y m d : Z) : Z :=
  _days_before_year y + _days_before_month y m + d.

Definition _DI400Y : Z := 146097.
Definition _DI100Y : Z := 36524.
Definition _DI4Y : Z := 1461.
Definition _MAXORDINAL : Z := 3652059.

Definition _ord2ymd (n : Z) : Z * Z * Z :=
  let n := n - 1 in
  let n400 := n / _DI400Y in
  let n := n mod _DI400Y in
  let y := n400 * 400 + 1 in
  let n100 := n / _DI100Y in
  let n := n mod _DI100Y in
  let n4 := n / _DI4Y in
  let n := n mod _DI4Y in
  let n1 := n / 365 in
  let n := n mod 365 in
  let y := y + n100 * 100 + n4 * 4 + n1 in
  if (n1 =? 4) || (n100 =? 4) then (y - 1, 12, 31)
  else
    let leapyear := (n1 =? 3) && (negb (n4 =? 24) || (n100 =? 3)) in
    let m := Z.shiftr (n + 50) 5 in
    let preceding := _DAYS_BEFORE_MONTH m + Z.b2z ((2 <? m) && leapyear) in
    let '(m, preceding) :=
      if n <? preceding
      then (m - 1,
            preceding - (_DAYS_IN_MONTH (m - 1)
                         + Z.b2z ((m - 1 =? 2) && leapyear)))
      else (m, preceding) in
    (y, m, n - preceding + 1).

(** [(dt - timedelta(seconds=offset)).replace(tzinfo=tz)] *)
Definition shift_to (dt : datetime) (offset : Z) (tz : Z) : result datetime :=
  let secs := hour dt * 3600 + minute dt * 60 + second dt - offset in
  let days := _ymd2ord (year dt) (month dt) (day dt) + secs / 86400 in
  let secs := secs mod 86400 in
  if (0 <? days) && (days <=? _MAXORDINAL) then
    let '(y, m, d) := _ord2ymd days in
    Return (mkdatetime y m d (secs / 3600) ((secs mod 3600) / 60)
              ((secs mod 3600) mod 60) (microsecond dt) (Some tz))
  else Raise OverflowError.

(** What the client takes from outside Python's core: dateutil's parser and
    the zone of the host, which [astimezone] consults for a naive value. *)
Class Platform : Type := {
  parse_timestr : string -> option datetime;
  local_utcoffset : datetime -> Z
}.

Section Timestamps.
Context {platform : Platform}.

(** [dateparser.parse(x)] *)
Definition dateparser_parse (x : value) : result datetime :=
  match x with
  | VStr s =>
      match parse_timestr s with
      | Some dt => Return dt
      | None => Raise ParserError
      end
  | _ => Raise TypeError
  end.

(** [dt.astimezone(pytz.utc)] *)
Definition astimezone_utc (dt : datetime) : result datetime :=
  let myoffset :=
    match tzinfo dt with
    | Some off => off
    | None => local_utcoffset dt
    end in
  shift_to dt myoffset 0.

End Timestamps.

(** ** A reference platform: ISO-8601 timestamps on a host running in UTC *)

Definition digit (c : ascii) : option Z :=
  let n := Z.of_N (N_of_ascii c) in
  if (48 <=? n) && (n <=? 57) then Some (n - 48) else None.

(** Exactly [k] decimal digits at the head of [s]. *)
Fixpoint number (k : nat) (acc : Z) (s : string) : option (Z * string) :=
  match k with
  | O => Some (acc, s)
  | S k' =>
      match s with
      | String c s' =>
          match digit c with
          | Some d => number k' (acc * 10 + d) s'
          | None => None
          end
      | EmptyString => None
      end
  end.

Definition expect (c : ascii) (s : string) : option string :=
  match s with
  | String c' s' => if Ascii.eqb c c' then Some s' else None
  | EmptyString => None
  end.

Definition obind {A B : Type} (o : option A) (k : A -> option B) : option B :=
  match o with
  | Some a => k a
  | None => None
  end.

(** The zone designator: nothing (naive), [Z], or [+hh:mm] / [-hh:mm]. *)
Definition iso_zone (s : string) : option (option Z) :=
  match s with
  | EmptyString => Some None
  | String c s' =>
      if Ascii.eqb c "Z" then
        match s' with EmptyString => Some (Some 0) | _ => None end
      else
        let sign := if Ascii.eqb c "+" then Some 1
                    else if Ascii.eqb c "-" then Some (-1) else None in
        obind sign (fun sg =>
        obind (number 2 0 s') (fun '(hh, s1) =>
        obind (expect ":" s1) (fun s2 =>
        obind (number 2 0 s2) (fun '(mm, s3) =>
        match s3 with
        | EmptyString =>
            if (hh <? 24) && (mm <? 60)
            then Some (Some (sg * (hh * 3600 + mm * 60)))
            else None
        | _ => None
        end))))
  end.

(** [YYYY-MM-DDThh:mm:ss] followed by a zone designator. *)
Definition iso8601 (s : string) : option datetime :=
  obind (number 4 0 s) (fun '(y, s) =>
  obind (expect "-" s) (fun s =>
  obind (number 2 0 s) (fun '(mo, s) =>
  obind (expect "-" s) (fun s =>
  obind (number 2 0 s) (fun '(d, s) =>
  obind (expect "T" s) (fun s =>
  obind (number 2 0 s) (fun '(h, s) =>
  obind (expect ":" s) (fun s =>
  obind (number 2 0 s) (fun '(mi, s) =>
  obind (expect ":" s) (fun s =>
  obind (number 2 0 s) (fun '(se, s) =>
  obind (iso_zone s) (fun tz =>
  if (1 <=? y) && (1 <=? mo) && (mo <=? 12) && (1 <=? d)
     && (d <=? _days_in_month y mo) && (h <? 24) && (mi <? 60) && (se <? 60)
  then Some (mkdatetime y mo d h mi se 0 tz)
  else None)))))))))))).

Definition utc_host : Platform :=
  {| parse_timestr := iso8601; local_utcoffset := fun _ => 0 |}.

(** ** Identifiers given by the caller *)

(** [Union[int, str]] *)
Inductive ident : Type :=
| IdInt (n : Z)
| IdStr (s : string).

Definition is_space (c : ascii) : bool :=
  let n := N_of_ascii c in
  ((9 <=? n) && (n <=? 13))%N || (n =? 32)%N.

Fixpoint lstrip (s : string) : string :=
  match s with
  | String c s' => if is_space c then lstrip s' else s
  | EmptyString => EmptyString
  end.

Fixpoint rev_string (s acc : string) : string :=
  match s with
  | String c s' => rev_string s' (String c acc)
  | EmptyString => acc
  end.

Definition strip (s : string) : string :=
  rev_string (lstrip (rev_string (lstrip s) EmptyString)) EmptyString.

(** Digits with single underscores between them. *)
Fixpoint int_digits (s : string) (acc : Z) (after_digit : bool) : option Z :=
  match s with
  | EmptyString => if after_digit then Some acc else None
  | String c s' =>
      match digit c with
      | Some d => int_digits s' (acc * 10 + d) true
      | None =>
          if Ascii.eqb c "_" && after_digit then int_digits s' acc false
          else None
      end
  end.

(** [int(x)] for an [int] or a [str] holding an ASCII decimal literal. *)
Definition py_int (x : ident) : result Z :=
  match x with
  | IdInt n => Return n
  | IdStr s =>
      let s := strip s in
      let '(sg, body) :=
        match s with
        | String c s' =>
            if Ascii.eqb c "-" then (-1, s')
            else if Ascii.eqb c "+" then (1, s') else (1, s)
        | EmptyString => (1, s)
        end in
      match int_digits body 0 false with
      | Some n => Return (sg * n)
      | None => Raise ValueError
      end
  end.

(** ** The data model *)

(** The dataclasses [User], [Thread] and [Posting] come from
    [dstclient.dataclasses], which is not among the sources; section 3 of the
    specification gives their fields and says they carry no logic.  A field
    filled straight from the response holds whatever object the response
    had. *)
Module User.
(** Modelled from the spec: the dataclass [User] of [dstclient.dataclasses],
    [{ user_id, name }]. *)
Record t : Type := mk { user_id : value; name : value }.
End User.
Abbreviation User := User.t.

Module Thread.
(** Modelled from the spec: the dataclass [Thread] of
    [dstclient.dataclasses], one live-blog entry. *)
Record t : Type := mk {
  thread_id : value;
  published : datetime;
  ticker_id : Z;
  title : value;
  message : value;
  user : User;
  upvotes : value;
  downvotes : value
}.
End Thread.
Abbreviation Thread := Thread.t.

Module Posting.
(** Modelled from the spec: the dataclass [Posting] of
    [dstclient.dataclasses], one comment; [thread_id] is null for the forum
    and [parent_id] null for a root. *)
Record t : Type := mk {
  posting_id : value;
  parent_id : value;
  user : User;
  thread_id : option Z;
  published : datetime;
  title : value;
  message : value;
  upvotes : value;
  downvotes : value
}.
End Posting.
Abbreviation Posting := Posting.t.

(** ** The HTTP exchange *)

(** A GET request, by endpoint and query parameters. *)
Inductive request : Type :=
| Redcontent (id : ident) (ps : Z)
| Postings (objectId redContentId : ident) (skipToPostingId : option value)
| GetForumInfo (article_id : ident)
| ThreadsByForumQuery (id : value) (first : Z) (depth : nat).

(** The remote side: the decoded body (or the exception of the failed call)
    answering a request, given the requests served before it. *)
Definition backend : Type := list request -> request -> result value.

(** Client code: a computation over the log of requests issued so far. *)
Definition client (A : Type) : Type := list request -> result A * list request.

Definition ret {A : Type} (a : A) : client A := fun log => (Return a, log).

Definition lift {A : Type} (r : result A) : client A := fun log => (r, log).

Definition cbind {A B : Type} (c : client A) (k : A -> client B) : client B :=
  fun log =>
    match c log with
    | (Return a, log') => k a log'
    | (Raise e, log') => (Raise e, log')
    end.

Notation "x <~ c ;; k" := (cbind c (fun x => k))
  (at level 61, c at next level, right associativity) : py_scope.

(** [async with session.get(url) as resp: ... await resp.json()] *)
Definition http_get (b : backend) (r : request) : client value :=
  fun log => (b log r, log ++ [r]).

(** A [while] loop whose body either goes round again with a new state or
    leaves with the result; [None] when [fuel] rounds were not enough. *)
Fixpoint while {S R : Type} (fuel : nat) (body : S -> client (S + R)) (st : S)
  (log : list request) : option (result R * list request) :=
  match fuel with
  | O => None
  | Datatypes.S fuel' =>
      match body st log with
      | (Raise e, log') => Some (Raise e, log')
      | (Return (inr r), log') => Some (Return r, log')
      | (Return (inl st'), log') => while fuel' body st' log'
      end
  end.

(** ** Dicts built by the client *)

(** [d[k] = v]: a key already present keeps its place and takes the new
    value. *)
Fixpoint dict_set (k v : value) (d : list (value * value)) : list (value * value) :=
  match d with
  | [] => [(k, v)]
  | (k', v') :: d' =>
      if key_eq k' k then (k', v) :: d' else (k', v') :: dict_set k v d'
  end.

(** [{p["pid"]: p for p in postings}], filled from left to right. *)
Fixpoint dict_by_pid (postings : list value) (d : list (value * value))
  : result (list (value * value)) :=
  match postings with
  | [] => Return d
  | p :: rest =>
      pid <- p.["pid"] ;;
      if hashable pid then dict_by_pid rest (dict_set pid p d)
      else Raise TypeError
  end.

(** [list({p["pid"]: p for p in postings}.values())] *)
Definition remove_duplicates (postings : list value) : result (list value) :=
  d <- dict_by_pid postings [] ;;
  Return (map snd d).

(** ** Flattening the reply tree *)

(** [linearize(edges)]: the edges themselves, then the flattened replies of
    each edge in turn. *)
Fixpoint linearize (edges : value) : result (list value) :=
  match edges with
  | VList es =>
      tails <-
        (fix each (l : list value) : result (list value) :=
           match l with
           | [] => Return []
           | e :: l' =>
               sub <-
                 match e with
                 | VDict d =>
                     (fix find (d : list (string * value)) : result (list value) :=
                        match d with
                        | [] => Raise (KeyError (VStr "replies"))
                        | (k, v) :: d' =>
                            if String.eqb "replies" k then linearize v
                            else find d'
                        end) d
                 | _ => Raise TypeError
                 end ;;
               rest <- each l' ;;
               Return (sub ++ rest)
           end) es ;;
      Return (es ++ tails)
  | VStr EmptyString => Return []
  | VDict [] => Return []
  | _ => Raise TypeError
  end.

(** ** The client *)

Section DerStandardAPI.
Context {platform : Platform}.
Variable b : backend.

(** *** Ticker API *)

(** The [Thread(...)] expression of [get_ticker_threads] for one record. *)
Definition thread_of (ticker_id : ident) (t : value) : result Thread :=
  thread_id <- t.["id"] ;;
  ctd <- t.["ctd"] ;;
  parsed <- dateparser_parse ctd ;;
  published <- astimezone_utc parsed ;;
  ticker <- py_int ticker_id ;;
  hl <- get t "hl" ;;
  cm <- get t "cm" ;;
  cid <- t.["cid"] ;;
  cn <- t.["cn"] ;;
  vp <- t.["vp"] ;;
  vn <- t.["vn"] ;;
  Return (Thread.mk thread_id published ticker (or_none hl) (or_none cm)
            (User.mk cid cn) vp vn).

Definition get_ticker_threads (ticker_id : ident) : client (list Thread) :=
  body <~ http_get b (Redcontent ticker_id 1000000) ;;
  lift (rcs <- body.["rcs"] ;;
        ts <- iter rcs ;;
        mapM (thread_of ticker_id) ts).

Definition _get_thread_postings_page (ticker_id thread_id : ident)
  (skip_to : value) : client value :=
  http_get b (Postings ticker_id thread_id
                (if truthy skip_to then Some skip_to else None)).

(** One round of [while page["p"]: ...]; the state is [(postings, page)]. *)
Definition next_page (ticker_id thread_id : ident) (st : list value * value)
  : client (list value * value + list value) :=
  let '(postings, page) := st in
  p <~ lift page.["p"] ;;
  if truthy p then
    items <~ lift (iter p) ;;
    let postings := postings ++ items in
    skip_to <~ lift (last <- getitem p (VInt (-1)) ;; last.["pid"]) ;;
    page <~ _get_thread_postings_page ticker_id thread_id skip_to ;;
    ret (inl (postings, page))
  else ret (inr postings).

(** The [Posting(...)] expression of [get_thread_postings] for one record. *)
Definition posting_of (thread_id : ident) (p : value) : result Posting :=
  pid <- p.["pid"] ;;
  ppid <- p.["ppid"] ;;
  cid <- p.["cid"] ;;
  cn <- p.["cn"] ;;
  thread <- py_int thread_id ;;
  cd <- p.["cd"] ;;
  parsed <- dateparser_parse cd ;;
  published <- astimezone_utc parsed ;;
  hl <- get p "hl" ;;
  tx <- get p "tx" ;;
  vp <- p.["vp"] ;;
  vn <- p.["vn"] ;;
  Return (Posting.mk pid ppid (User.mk cid cn) (Some thread) published
            (or_none hl) (or_none tx) vp vn).

(** The paging part of [get_thread_postings]: the first page, then the loop;
    it yields the accumulated raw postings. *)
Definition fetch_pages (fuel : nat) (ticker_id thread_id : ident)
  (log : list request) : option (result (list value) * list request) :=
  match _get_thread_postings_page ticker_id thread_id VNone log with
  | (Raise e, log') => Some (Raise e, log')
  | (Return page, log') =>
      while fuel (next_page ticker_id thread_id) ([], page) log'
  end.

Definition get_thread_postings (fuel : nat) (ticker_id thread_id : ident)
  (log : list request) : option (result (list Posting) * list request) :=
  match fetch_pages fuel ticker_id thread_id log with
  | None => None
  | Some (r, log') =>
      Some (postings <- r ;;
            postings <- remove_duplicates postings ;;
            mapM (posting_of thread_id) postings,
            log')
  end.

(** *** Forum API *)

Definition _get_forum_id (article_id : ident) : client value :=
  response <~ http_get b (GetForumInfo article_id) ;;
  lift (data <- response.["data"] ;;
        forum <- data.["getForumByContextUri"] ;;
        forum.["id"]).

(** [p["lifecycleStatus"] == "Published"] *)
Definition is_published (p : value) : result bool :=
  status <- p.["lifecycleStatus"] ;;
  Return (py_eq status (VStr "Published")).

(** The [Posting(...)] expression of [get_forum_postings] for one node. *)
Definition forum_posting_of (p : value) : result Posting :=
  id <- p.["id"] ;;
  root <- p.["rootPostingId"] ;;
  let parent := if py_eq id root then VNone else root in
  author <- p.["author"] ;;
  author_id <- author.["id"] ;;
  author_name <- author.["name"] ;;
  history <- p.["history"] ;;
  created <- history.["created"] ;;
  published <- dateparser_parse created ;;
  reactions <- p.["reactions"] ;;
  aggregated <- reactions.["aggregated"] ;;
  up <- getitem aggregated (VInt 0) ;;
  upvotes <- up.["value"] ;;
  down <- getitem aggregated (VInt 1) ;;
  downvotes <- down.["value"] ;;
  title <- p.["title"] ;;
  text <- p.["text"] ;;
  Return (Posting.mk id parent (User.mk author_id author_name) None published
            (or_none title) (or_none text) upvotes downvotes).

(** The decoding and flattening of the response inside [get_forum_postings]:
    [root = [e["node"] for e in ...["edges"]]], then [linearize(root)]. *)
Definition raw_postings_of (response : value) : result (list value) :=
  data <- response.["data"] ;;
  postings <- data.["getForumRootPostings"] ;;
  edges <- postings.["edges"] ;;
  es <- iter edges ;;
  root <- mapM (fun e => e.["node"]) es ;;
  linearize (VList root).

Definition get_forum_postings (article_id : ident) : client (list Posting) :=
  forum_id <~ _get_forum_id article_id ;;
  response <~ http_get b (ThreadsByForumQuery forum_id 100000 18) ;;
  lift (raw_postings <- raw_postings_of response ;;
        filterMapM is_published forum_posting_of raw_postings).

End DerStandardAPI.

(** ** Notions used in the statements *)

(** A ticker page carrying the given postings. *)
Definition page_of (postings : list value) : value :=
  VDict [("p", VList postings)].

(** A mock backend answering the n-th request with the n-th scripted
    response, whatever is asked; the transport fails once the script is
    used up. *)
Definition scripted (responses : list (result value)) : backend :=
  fun log _ =>
    match nth_error responses (List.length log) with
    | Some r => r
    | None => Raise ClientError
    end.

(** A backend that answers every request with the same body. *)
Definition repeating (body : value) : backend := fun _ _ => Return body.

(** The class of a dict key: keys of one class are one key ([True] and [1]
    hash and compare equal). *)
Definition key_code (v : value) : value :=
  match v with
  | VBool x => VInt (Z.b2z x)
  | _ => v
  end.

(** A record that can be asked for its ["pid"]. *)
Definition has_pid (p : value) : bool :=
  match p.["pid"] with
  | Return _ => true
  | Raise _ => false
  end.

(** The cursor the client derives from a page: [page["p"][-1]["pid"]], sent
    as [skipToPostingId] when it is true. *)
Definition cursor_of (postings : list value) : option value :=
  match (last <- getitem (VList postings) (VInt (-1)) ;; last.["pid"]) with
  | Return pid => if truthy pid then Some pid else None
  | Raise _ => None
  end.

(** A page that ends the paging: its ["p"] is there and is false. *)
Definition is_last_page (page : value) : bool :=
  match page.["p"] with
  | Return p => negb (truthy p)
  | Raise _ => false
  end.

(** [p["lifecycleStatus"] == "Published"], false where the field is
    missing. *)
Definition lifecycle_published (p : value) : bool :=
  match p.["lifecycleStatus"] with
  | Return status => py_eq status (VStr "Published")
  | Raise _ => false
  end.

(** The fields [get_ticker_threads] reads with [t[...]], in the order it
    reads them, and the ones read before a given one. *)
Definition required_thread_fields : list string :=
  ["id"; "ctd"; "cid"; "cn"; "vp"; "vn"].

Fixpoint earlier (k : string) (keys : list string) : list string :=
  match keys with
  | [] => []
  | k' :: keys' => if String.eqb k' k then [] else k' :: earlier k keys'
  end.

(** The fields the two posting mappings read with [p[...]]. *)
Definition required_posting_fields : list string :=
  ["pid"; "ppid"; "cid"; "cn"; "cd"; "vp"; "vn"].

Definition required_node_fields : list string :=
  ["id"; "rootPostingId"; "author"; "history"; "reactions"; "title"; "text"].

(** What is known of the dict after the records [done] went in. *)
Definition dict_inv (done : list value) (d : list (value * value)) : Prop :=
  (forall k v, In (k, v) d ->
     hashable k = true /\
     exists pid, v.["pid"] = Return pid /\ hashable pid = true /\
                 key_code pid = key_code k)
  /\ NoDup (map (fun kv => key_code (fst kv)) d)
  /\ (forall k v, In (k, v) d ->
        exists l1 l2, done = l1 ++ v :: l2 /\
          forall r pid, In r l2 -> r.["pid"] = Return pid ->
                        key_code pid <> key_code k)
  /\ (forall r, In r done ->
        exists pid k v, r.["pid"] = Return pid /\ hashable pid = true /\
                        In (k, v) d /\ key_code pid = key_code k).

(** ** Reply trees *)

(** A reply tree as the forum API nests it: a node has its own fields and the
    list of its replies.  [node_value] is the dict the client receives for
    it; the dict is read by key, and its ["replies"] entry is listed first. *)
Inductive tree : Type :=
| Node (fields : list (string * value)) (replies : list tree).

Definition replies_of (t : tree) : list tree :=
  match t with Node _ rs => rs end.

Fixpoint node_value (t : tree) : value :=
  match t with
  | Node fields rs => VDict (("replies", VList (map node_value rs)) :: fields)
  end.

Fixpoint node_count (t : tree) : nat :=
  match t with
  | Node _ rs => S (list_sum (map node_count rs))
  end.

(** Pre-order: a node, then each of its subtrees in full, one after the
    other. *)
Fixpoint preorder (t : tree) : list tree :=
  match t with
  | Node _ rs => t :: flat_map preorder rs
  end.

(** The order of [linearize], on trees: a list of siblings, then what lies
    below each of them in turn. *)
Fixpoint below (t : tree) : list tree :=
  match t with
  | Node _ rs => rs ++ flat_map below rs
  end.

Definition siblings_first (forest : list tree) : list tree :=
  forest ++ flat_map below forest.

(** [within t forest]: [t] is a node of the forest, at any depth. *)
Inductive within (t : tree) : list tree -> Prop :=
| within_top (forest : list tree) : In t forest -> within t forest
| within_deeper (forest : list tree) (u : tree) :
    In u forest -> within t (replies_of u) -> within t forest.

(** ** Sample data *)

(** The thread 1 > (2 > 4, 3). *)
Definition small_forest : list tree :=
  [Node [("id", VInt 1)]
     [Node [("id", VInt 2)] [Node [("id", VInt 4)] []];
      Node [("id", VInt 3)] []]].

(** A ticker posting as the backend sends it. *)
Definition ticker_record (pid : Z) (tx : string) : value :=
  VDict [("pid", VInt pid); ("ppid", VNone); ("cid", VInt 7);
         ("cn", VStr "anna"); ("cd", VStr "2022-01-01T12:00:00+01:00");
         ("tx", VStr tx); ("vp", VInt 2); ("vn", VInt 0)].

(** Two pages that overlap in posting 2, which was edited in between. *)
Definition overlapping_pages : list (list value) :=
  [[ticker_record 1 "first"; ticker_record 2 "second"];
   [ticker_record 2 "second, edited"; ticker_record 3 "third"]].

Definition overlapping_backend : backend :=
  scripted (map (fun pg => Return (page_of pg)) (overlapping_pages ++ [[]])).

(** A forum node as the backend sends it. *)
Definition reaction (name : string) (count : Z) : value :=
  VDict [("name", VStr name); ("value", VInt count)].

Definition forum_node (id : Z) (root : value) (status : string)
  (aggregated replies : list value) : value :=
  VDict [("id", VInt id); ("lifecycleStatus", VStr status);
         ("author", VDict [("id", VStr "u-17"); ("name", VStr "bert")]);
         ("title", VStr EmptyString); ("text", VStr "hello");
         ("reactions", VDict [("aggregated", VList aggregated)]);
         ("history", VDict [("created", VStr "2022-01-01T12:00:00+01:00")]);
         ("rootPostingId", root); ("replies", VList replies)].

Definition votes : list value := [reaction "positive" 4; reaction "negative" 1].

(** The two answers of the forum API: the forum of the article, then its
    root postings with their reply trees. *)
Definition forum_backend (roots : list value) : backend :=
  scripted
    [Return (VDict [("data", VDict [("getForumByContextUri",
               VDict [("id", VStr "forum-1"); ("totalPostingCount", VInt 3)])])]);
     Return (VDict [("data", VDict [("getForumRootPostings",
               VDict [("edges",
                       VList (map (fun n => VDict [("node", n)]) roots))])])])].

(** A thread of three nodes whose first reply was deleted. *)
Definition thread_with_deleted_reply : value :=
  forum_node 10 (VInt 10) "Published" votes
    [forum_node 11 (VInt 10) "Deleted" votes [];
     forum_node 12 (VInt 10) "Published" votes []].

(** A thread whose reply has a reply of its own. *)
Definition thread_with_nested_reply : value :=
  forum_node 20 (VInt 20) "Published" votes
    [forum_node 21 (VInt 20) "Published" votes
       [forum_node 22 (VInt 20) "Published" votes []]].

(** A node that names no root posting. *)
Definition node_without_root : value :=
  forum_node 5 VNone "Published" votes [].

(** A ticker thread as the backend sends it, and the body of a
    [redcontent] answer. *)
Definition thread_record (fields : list (string * value)) : value :=
  VDict (fields ++
         [("ctd", VStr "2022-01-01T12:00:00+01:00"); ("hl", VStr EmptyString);
          ("cm", VStr "on air"); ("cid", VInt 3); ("cn", VStr "carl");
          ("vp", VInt 1); ("vn", VInt 0)]).

Definition redcontent_backend (records : list value) : backend :=
  scripted [Return (VDict [("rcs", VList records)])].

(** A node whose reactions are listed the other way round, and one with a
    single reaction. *)
Definition node_with_swapped_reactions : value :=
  forum_node 30 (VInt 30) "Published"
    [reaction "negative" 1; reaction "positive" 4] [].

Definition node_with_one_reaction : value :=
  forum_node 31 (VInt 31) "Published" [reaction "positive" 4] [].

(** A backend that serves the same one-posting page for ever. *)
Definition stuck_backend : backend :=
  repeating (page_of [ticker_record 1 "first"]).

(** ** Notions used for the further properties *)

(** The keys of a sequence in order of first appearance: a key is kept unless
    an equal key came before it. *)
Fixpoint first_seen (seen ids : list value) : list value :=
  match ids with
  | [] => []
  | k :: ids' =>
      if existsb (fun s => key_eq s k) seen then first_seen seen ids'
      else k :: first_seen (seen ++ [k]) ids'
  end.

(** [reaches n edges]: [linearize(edges)] comes across the node [n], among
    the edges themselves or, through the ["replies"] of an edge, further
    down. *)
Inductive reaches (n : value) : value -> Prop :=
| reaches_top (es : list value) : In n es -> reaches n (VList es)
| reaches_deeper (es : list value) (e r : value) :
    In e es -> e.["replies"] = Return r -> reaches n r ->
    reaches n (VList es).

(** A thread cut off below its first reply: the innermost node has only its
    id, as at the end of a query of limited depth. *)
Definition thread_cut_off : value :=
  forum_node 40 (VInt 40) "Published" votes
    [forum_node 41 (VInt 40) "Published" votes [VDict [("id", VInt 42)]]].

(** ** The forum query *)

Definition newline : string := String (ascii_of_nat 10) EmptyString.

(** A text given line by line. *)
Definition lines (ls : list string) : string := String.concat newline ls.

(** [nodequery(n)] for [n >= 0] (the code calls it with 18): the selection
    asked of a node, nested [n] levels deep through [replies]; at depth 0
    only the id. *)
Fixpoint nodequery (n : nat) : string :=
  match n with
  | O => "id"
  | S n' =>
      (lines [EmptyString;
              "                id";
              "                lifecycleStatus";
              "                author {id";
              "                  name";
              "                }";
              "                title";
              "                text";
              "                reactions {";
              "                  aggregated {name value}";
              "                }";
              "                history {";
              "                  created";
              "                }";
              "                rootPostingId";
              "                replies {"]
       ++ nodequery n'
       ++ lines ["}"; "            "])%string
  end.

(** The ["query"] of [get_forum_postings] around a subquery; the code puts
    [nodequery(18)] there. *)
Definition ThreadsByForumQuery_text (subquery : string) : string :=
  (lines [EmptyString;
          "              query ThreadsByForumQuery($id: String!, $first: Int) {";
          "                getForumRootPostings(getForumRootPostingsParams: {forumId: $id, first: $first}) {";
          "                  edges {";
          "                    node {";
          "                      "]
   ++ subquery
   ++ lines [EmptyString;
             "                    }";
             "                  }";
             "                }";
             "              }";
             "            "])%string.

(** The nesting depth after reading [s] from depth [depth]; [None] when a
    closing brace has nothing to close. *)
Fixpoint brace_depth (s : string) (depth : nat) : option nat :=
  match s with
  | EmptyString => Some depth
  | String c s' =>
      if Ascii.eqb c "{" then brace_depth s' (S depth)
      else if Ascii.eqb c "}" then
        match depth with
        | O => None
        | S d => brace_depth s' d
        end
      else brace_depth s' depth
  end.

(** ** Accepting terms and conditions *)

(** What the client does to the browser, in order.  Page elements are
    handles. *)
Inductive call : Type :=
| Get (url : string)
| FindElements (tag : string)
| GetAttribute (element : nat) (name : string)
| SwitchToFrame (element : nat)
| Click (element : nat)
| GetCookies
| Sleep (seconds : Z).

(** The browser behind the Selenium driver: what each call answers, given
    the calls made before it; [None] when the call raises. *)
Record webdriver : Type := mkwebdriver {
  driver_get : list call -> string -> option unit;
  find_elements : list call -> string -> option (list nat);
  get_attribute : list call -> nat -> string -> option value;
  switch_to_frame : list call -> nat -> option unit;
  click : list call -> nat -> option unit;
  get_cookies : list call -> option (list value)
}.

(** How [_accept_conditions] can fail: its own [TimeoutError], an exception
    of the driver, or a Python exception while building the cookie dict. *)
Inductive consent_exn : Type :=
| TimeoutError
| WebDriverException
| Uncaught (e : exn).

Inductive attempt (A : Type) : Type :=
| Done (a : A)
| Failed (e : consent_exn).
Arguments Done {A} a.
Arguments Failed {A} e.

(** Browser automation: a computation over the log of calls made so far. *)
Definition automation (A : Type) : Type := list call -> attempt A * list call.

Definition aret {A : Type} (a : A) : automation A := fun log => (Done a, log).

Definition abind {A B : Type} (c : automation A) (k : A -> automation B)
  : automation B :=
  fun log =>
    match c log with
    | (Done a, log') => k a log'
    | (Failed e, log') => (Failed e, log')
    end.

Notation "x <<- c ;; k" := (abind c (fun x => k))
  (at level 61, c at next level, right associativity) : py_scope.

(** A call to the driver, answered by the browser. *)
Definition perform {A : Type} (answer : list call -> option A) (c : call)
  : automation A :=
  fun log =>
    (match answer log with
     | Some a => Done a
     | None => Failed WebDriverException
     end, log ++ [c]).

(** [time.sleep(1)] *)
Definition sleep (seconds : Z) : automation unit :=
  fun log => (Done tt, log ++ [Sleep seconds]).

Definition python {A : Type} (r : result A) : automation A :=
  fun log =>
    (match r with
     | Return a => Done a
     | Raise e => Failed (Uncaught e)
     end, log).

(** [{c["name"]: c["value"] for c in cookies}], filled from left to right. *)
Fixpoint cookie_dict (cookies : list value) (d : list (value * value))
  : result (list (value * value)) :=
  match cookies with
  | [] => Return d
  | c :: rest =>
      name <- c.["name"] ;;
      v <- c.["value"] ;;
      if hashable name then cookie_dict rest (dict_set name v d)
      else Raise TypeError
  end.

Definition consent_url : string := "https://www.derstandard.at/consent/tcf/".

Section Consent.
Variable w : webdriver.

(** [for button in ...: if title == "Einverstanden": click; return cookies];
    [Some] is the [return]. *)
Fixpoint scan_buttons (buttons : list nat)
  : automation (option (list (value * value))) :=
  match buttons with
  | [] => aret None
  | button :: rest =>
      title <<- perform (fun log => get_attribute w log button "title")
                  (GetAttribute button "title") ;;
      if py_eq title (VStr "Einverstanden") then
        _ <<- perform (fun log => click w log button) (Click button) ;;
        jar <<- perform (get_cookies w) GetCookies ;;
        d <<- python (cookie_dict jar []) ;;
        aret (Some d)
      else scan_buttons rest
  end.

(** [for element in ...: if title == "SP Consent Message": ...; sleep(1)] *)
Fixpoint scan_iframes (elements : list nat)
  : automation (option (list (value * value))) :=
  match elements with
  | [] => aret None
  | element :: rest =>
      title <<- perform (fun log => get_attribute w log element "title")
                  (GetAttribute element "title") ;;
      found <<- (if py_eq title (VStr "SP Consent Message") then
                   _ <<- perform (fun log => switch_to_frame w log element)
                           (SwitchToFrame element) ;;
                   buttons <<- perform (fun log => find_elements w log "button")
                                 (FindElements "button") ;;
                   scan_buttons buttons
                 else aret None) ;;
      match found with
      | Some d => aret (Some d)
      | None => _ <<- sleep 1 ;; scan_iframes rest
      end
  end.

(** One round of [for _ in it]. *)
Definition poll : automation (option (list (value * value))) :=
  elements <<- perform (fun log => find_elements w log "iframe")
                 (FindElements "iframe") ;;
  scan_iframes elements.

(** [for _ in range(n): ... else: raise TimeoutError(...)] *)
Fixpoint poll_for (n : nat) : automation (list (value * value)) :=
  match n with
  | O => fun log => (Failed TimeoutError, log)
  | S n' =>
      found <<- poll ;;
      match found with
      | Some d => aret d
      | None => poll_for n'
      end
  end.

(** [for _ in itertools.count(): ...]; [None] when [fuel] rounds were not
    enough. *)
Fixpoint poll_forever (fuel : nat) (log : list call)
  : option (attempt (list (value * value)) * list call) :=
  match fuel with
  | O => None
  | S fuel' =>
      match poll log with
      | (Failed e, log') => Some (Failed e, log')
      | (Done (Some d), log') => Some (Done d, log')
      | (Done None, log') => poll_forever fuel' log'
      end
  end.

(** [_accept_conditions(timeout)], for no timeout or an [int] below 2^52 in
    size, for which [int(timeout + 0.5)] is the timeout itself.  The driver is
    the one [chromedriver()] hands over. *)
Definition _accept_conditions (timeout : option Z) (fuel : nat)
  : option (attempt (list (value * value)) * list call) :=
  match perform (fun log => driver_get w log consent_url) (Get consent_url) []
  with
  | (Failed e, log) => Some (Failed e, log)
  | (Done _, log) =>
      match timeout with
      | None => poll_forever fuel log
      | Some t => Some (poll_for (Z.to_nat t) log)
      end
  end.

(** The client object: its cookies, unset at first. *)
Record DerStandardAPI : Type := mkDerStandardAPI {
  _cookies : option (list (value * value))
}.

Definition __init__ : DerStandardAPI := {| _cookies := None |}.

(** [self._cookies = await loop.run_in_executor(pool,
    self._accept_conditions)] *)
Definition update_cookies (fuel : nat) (self : DerStandardAPI)
  : option (attempt unit * DerStandardAPI) :=
  match _accept_conditions None fuel with
  | None => None
  | Some (Done d, _) => Some (Done tt, {| _cookies := Some d |})
  | Some (Failed e, _) => Some (Failed e, self)
  end.

End Consent.

(** A page that shows the same frames at every look, none of them the
    consent message. *)
Definition page_without_consent (frames : list nat) : webdriver :=
  {| driver_get := fun _ _ => Some tt;
     find_elements := fun _ tag =>
       if String.eqb tag "iframe" then Some frames else Some [];
     get_attribute := fun _ _ _ => Some (VStr "advertisement");
     switch_to_frame := fun _ _ => Some tt;
     click := fun _ _ => Some tt;
     get_cookies := fun _ => Some [] |}.

(** A page with the consent message in frame 1 and its accept button as
    button 7. *)
Definition consent_page : webdriver :=
  {| driver_get := fun _ _ => Some tt;
     find_elements := fun _ tag =>
       if String.eqb tag "iframe" then Some [0%nat; 1%nat]
       else Some [6%nat; 7%nat];
     get_attribute := fun _ element _ =>
       Some (if Nat.eqb element 1 then VStr "SP Consent Message"
             else if Nat.eqb element 7 then VStr "Einverstanden"
             else VNone);
     switch_to_frame := fun _ _ => Some tt;
     click := fun _ _ => Some tt;
     get_cookies := fun _ =>
       Some [VDict [("name", VStr "consentUUID"); ("value", VStr "abc")];
             VDict [("name", VStr "MGUID"); ("value", VStr "xyz")]] |}.

(** A ticker page whose only posting has the id 0. *)
Definition page_ending_in_zero : list value := [ticker_record 0 "zeroth"].

Definition is_sleep (c : call) : bool :=
  match c with
  | Sleep _ => true
  | _ => false
  end.

(** The calls of one round over the given frames when none of them is the
    consent message: a look for the frames, then for each frame its title and
    a second of sleep. *)
Definition idle_round (frames : list nat) : list call :=
  FindElements "iframe"
    :: flat_map (fun el => [GetAttribute el "title"; Sleep 1]) frames.

(** The log of a run that came back with cookies: the consent frame was
    recognised by its title and entered, its buttons were listed, and the
    last three calls read the title of the accept button, clicked it and
    fetched the cookies. *)
Definition accepted (w : webdriver) (log : list call)
  (d : list (value * value)) : Prop :=
  exists l1 l2 frame button ftitle btitle jar,
    log = l1 ++ [GetAttribute frame "title"; SwitchToFrame frame;
                 FindElements "button"]
             ++ l2 ++ [GetAttribute button "title"; Click button; GetCookies]
    /\ Forall (fun c => exists b, c = GetAttribute b "title") l2
    /\ get_attribute w l1 frame "title" = Some ftitle
    /\ py_eq ftitle (VStr "SP Consent Message") = true
    /\ get_attribute w
         (l1 ++ [GetAttribute frame "title"; SwitchToFrame frame;
                 FindElements "button"] ++ l2) button "title" = Some btitle
    /\ py_eq btitle (VStr "Einverstanden") = true
    /\ get_cookies w
         (l1 ++ [GetAttribute frame "title"; SwitchToFrame frame;
                 FindElements "button"]
             ++ l2 ++ [GetAttribute button "title"; Click button]) = Some jar
    /\ cookie_dict jar [] = Return d.

(** * Properties *)

(** ** Exceptions and comprehensions *)

Lemma bind_Return {A B : Type} (r : result A) (k : A -> result B) (y : B) :
  bind r k = Return y -> exists a, r = Return a /\ k a = Return y.
Proof.
  destruct r as [a|e]; simpl; intros H; [eauto | discriminate].
Qed.

Ltac inv_bind H :=
  repeat match type of H with
  | bind _ _ = Return _ =>
      let a := fresh "a" in
      let E := fresh "E" in
      apply bind_Return in H; destruct H as (a & E & H)
  | Return _ = Return _ => injection H as H
  end.

Lemma mapM_Forall2 {A B : Type} (f : A -> result B) (xs : list A) (ys : list B) :
  mapM f xs = Return ys -> Forall2 (fun x y => f x = Return y) xs ys.
Proof.
  revert ys; induction xs as [|x xs IH]; simpl; intros ys H.
  - injection H as <-. constructor.
  - inv_bind H. subst ys. constructor; auto.
Qed.

Lemma Forall2_In_l {A B : Type} (R : A -> B -> Prop) (xs : list A) (ys : list B)
  (x : A) :
  Forall2 R xs ys -> In x xs -> exists y, In y ys /\ R x y.
Proof.
  induction 1 as [|a y xs ys Hay _ IH]; simpl; intros Hin; [contradiction|].
  destruct Hin as [->|Hin].
  - exists y. auto.
  - destruct (IH Hin) as (y' & Hy' & HR). exists y'. auto.
Qed.

Lemma Forall2_In_r {A B : Type} (R : A -> B -> Prop) (xs : list A) (ys : list B)
  (y : B) :
  Forall2 R xs ys -> In y ys -> exists x, In x xs /\ R x y.
Proof.
  induction 1 as [|a b xs ys Hab _ IH]; simpl; intros Hin; [contradiction|].
  destruct Hin as [->|Hin].
  - exists a. auto.
  - destruct (IH Hin) as (x' & Hx' & HR). exists x'. auto.
Qed.

Lemma mapM_Raise {A B : Type} (f : A -> result B) (pre post : list A) (x : A)
  (ys : list B) (e : exn) :
  mapM f pre = Return ys -> f x = Raise e ->
  mapM f (pre ++ x :: post) = Raise e.
Proof.
  revert ys; induction pre as [|a pre IH]; simpl; intros ys Hpre Hx.
  - rewrite Hx. reflexivity.
  - inv_bind Hpre. rewrite E. simpl. erewrite IH; eauto.
Qed.

Lemma mapM_In_Raise {A B : Type} (f : A -> result B) (xs : list A) (x : A) :
  In x xs -> (exists e, f x = Raise e) -> exists e, mapM f xs = Raise e.
Proof.
  induction xs as [|a xs IH]; simpl; intros Hin Hx; [contradiction|].
  destruct (f a) as [y|e] eqn:Ea; simpl; [|eauto].
  destruct Hin as [->|Hin].
  - destruct Hx as (e & He). congruence.
  - destruct (IH Hin Hx) as (e & ->). simpl. eauto.
Qed.

(** A conditional comprehension keeps exactly the elements whose condition
    holds, in order. *)
Lemma filterMapM_Return {A B : Type} (c : A -> result bool) (f : A -> result B)
  (xs : list A) (ys : list B) :
  filterMapM c f xs = Return ys ->
  exists keep : A -> bool,
    Forall (fun x => c x = Return (keep x)) xs /\
    mapM f (filter keep xs) = Return ys.
Proof.
  intros H.
  exists (fun x => match c x with Return t => t | Raise _ => false end).
  revert ys H; induction xs as [|x xs IH]; simpl; intros ys H.
  - split; [constructor | assumption].
  - destruct (c x) as [[|]|e] eqn:Ec; simpl in H; try discriminate.
    + inv_bind H. subst ys. destruct (IH _ E0) as (HF & HM).
      split; [constructor; [rewrite Ec; reflexivity | exact HF]|].
      simpl. rewrite E, HM. reflexivity.
    + destruct (IH _ H) as (HF & HM).
      split; [constructor; [rewrite Ec; reflexivity | exact HF] | exact HM].
Qed.

(** ** Dict keys *)

Lemma key_eq_code (a b : value) :
  hashable a = true -> hashable b = true ->
  (key_eq a b = true <-> key_code a = key_code b).
Proof.
  unfold key_eq.
  destruct a as [|x|x|x|x|x], b as [|y|y|y|y|y]; simpl; intros Ha Hb;
    try discriminate; try (split; [discriminate | intros H; discriminate H]);
    try tauto.
  - destruct x, y; simpl; split; intros H; congruence.
  - rewrite Z.eqb_eq. split; [intros ->; reflexivity | intros H; congruence].
  - rewrite Z.eqb_eq. split; [intros ->; reflexivity | intros H; congruence].
  - rewrite Z.eqb_eq. split; [intros ->; reflexivity | intros H; congruence].
  - rewrite String.eqb_eq. split; [intros ->; reflexivity | intros H; congruence].
Qed.

Lemma key_eq_code_false (a b : value) :
  hashable a = true -> hashable b = true ->
  (key_eq a b = false <-> key_code a <> key_code b).
Proof.
  intros Ha Hb. rewrite <- (key_eq_code a b Ha Hb).
  destruct (key_eq a b); split; congruence.
Qed.

Lemma NoDup_map_apart {A B : Type} (f : A -> B) (l1 l2 : list A) (x y : A) :
  NoDup (map f (l1 ++ x :: l2)) -> In y (l1 ++ l2) -> f y <> f x.
Proof.
  rewrite map_app. simpl. intros H Hy E.
  apply NoDup_remove_2 in H. apply H.
  rewrite <- map_app, <- E. apply in_map. exact Hy.
Qed.

Lemma dict_set_cases (k v : value) (d : list (value * value)) :
  hashable k = true ->
  (forall k' v', In (k', v') d -> hashable k' = true) ->
  (exists d1 k' v' d2,
      d = d1 ++ (k', v') :: d2 /\ key_code k' = key_code k /\
      dict_set k v d = d1 ++ (k', v) :: d2)
  \/ ((forall k' v', In (k', v') d -> key_code k' <> key_code k) /\
      dict_set k v d = d ++ [(k, v)]).
Proof.
  intros Hk. induction d as [|[k0 v0] d IH]; simpl; intros Hd.
  - right. split; [intros ? ? []| reflexivity].
  - assert (H0 : hashable k0 = true) by (eapply Hd; left; reflexivity).
    destruct (key_eq k0 k) eqn:E.
    + left. exists [], k0, v0, d. simpl.
      apply key_eq_code in E; auto.
    + apply key_eq_code_false in E; auto.
      destruct IH as [(d1 & k' & v' & d2 & -> & Hc & ->)|(Hn & ->)].
      * intros k' v' Hin. eapply Hd. right. exact Hin.
      * left. exists ((k0, v0) :: d1), k', v', d2. auto.
      * right. split; [|reflexivity].
        intros k' v' [Heq|Hin]; [injection Heq as <- <-; exact E | eauto].
Qed.

Lemma dict_inv_set (done : list value) (d : list (value * value)) (p pid : value) :
  dict_inv done d -> p.["pid"] = Return pid -> hashable pid = true ->
  dict_inv (done ++ [p]) (dict_set pid p d).
Proof.
  intros (I1 & I2 & I3 & I4) Hp Hh.
  destruct (dict_set_cases pid p d Hh) as
    [(d1 & k' & v' & d2 & -> & Hc & ->)|(Hn & ->)].
  { intros k v Hin. apply (I1 k v Hin). }
  - assert (Hk' : hashable k' = true).
    { apply (I1 k' v'). apply in_or_app. right. left. reflexivity. }
    assert (Hold : forall k v, In (k, v) (d1 ++ d2) ->
                   In (k, v) (d1 ++ (k', v') :: d2)).
    { intros k v Hin. apply in_app_or in Hin. apply in_or_app.
      destruct Hin; [left | right; right]; assumption. }
    assert (Hsplit : forall k v, In (k, v) (d1 ++ (k', p) :: d2) ->
                     (k, v) = (k', p) \/ In (k, v) (d1 ++ d2)).
    { intros k v Hin. apply in_app_or in Hin.
      destruct Hin as [Hin|[Heq|Hin]];
        [right; apply in_or_app; left; exact Hin
        | left; symmetry; exact Heq
        | right; apply in_or_app; right; exact Hin]. }
    repeat split.
    + destruct (Hsplit k v H) as [Heq|Hin].
      * injection Heq as -> ->. exact Hk'.
      * apply (I1 k v (Hold _ _ Hin)).
    + destruct (Hsplit k v H) as [Heq|Hin].
      * injection Heq as -> ->. exists pid. auto.
      * apply (I1 k v (Hold _ _ Hin)).
    + rewrite map_app in *. simpl in *. exact I2.
    + intros k v Hin. destruct (Hsplit k v Hin) as [Heq|Hin'].
      * injection Heq as -> ->. exists done, []. split; [reflexivity|].
        intros r q [].
      * destruct (I3 k v (Hold _ _ Hin')) as (l1 & l2 & -> & Hl2).
        exists l1, (l2 ++ [p]). split.
        { rewrite <- app_assoc. reflexivity. }
        intros r q Hr Hq. apply in_app_or in Hr. destruct Hr as [Hr|[<-|[]]].
        { eapply Hl2; eauto. }
        rewrite Hp in Hq. injection Hq as <-. rewrite <- Hc.
        intros E.
        apply (NoDup_map_apart (fun kv => key_code (fst kv)) d1 d2
                 (k', v') (k, v) I2 Hin'). simpl. congruence.
    + intros r Hr. apply in_app_or in Hr. destruct Hr as [Hr|[<-|[]]].
      * destruct (I4 r Hr) as (q & k & v & Hq & Hhq & Hin & Hcq).
        apply in_app_or in Hin. destruct Hin as [Hin|[Heq|Hin]].
        { exists q, k, v. repeat split; auto. apply in_or_app. left. exact Hin. }
        { injection Heq as <- <-. exists q, k', p. repeat split; auto.
          apply in_or_app. right. left. reflexivity. }
        { exists q, k, v. repeat split; auto.
          apply in_or_app. right. right. exact Hin. }
      * exists pid, k', p. repeat split; auto.
        apply in_or_app. right. left. reflexivity.
  - repeat split.
    + apply in_app_or in H. destruct H as [Hin|[Heq|[]]].
      * apply (I1 k v Hin).
      * injection Heq as <- <-. exact Hh.
    + apply in_app_or in H. destruct H as [Hin|[Heq|[]]].
      * apply (I1 k v Hin).
      * injection Heq as <- <-. exists pid. auto.
    + rewrite map_app. simpl.
      apply NoDup_app; [exact I2 | repeat constructor; intros [] |].
      intros c Hc [<-|[]]. apply in_map_iff in Hc.
      destruct Hc as ([k v] & Hkv & Hin). simpl in Hkv.
      apply (Hn k v Hin). exact Hkv.
    + intros k v Hin. apply in_app_or in Hin. destruct Hin as [Hin|[Heq|[]]].
      * destruct (I3 k v Hin) as (l1 & l2 & -> & Hl2).
        exists l1, (l2 ++ [p]). split.
        { rewrite <- app_assoc. reflexivity. }
        intros r q Hr Hq. apply in_app_or in Hr. destruct Hr as [Hr|[<-|[]]].
        { eapply Hl2; eauto. }
        rewrite Hp in Hq. injection Hq as <-.
        intros E. apply (Hn k v Hin). congruence.
      * injection Heq as <- <-. exists done, []. split; [reflexivity|].
        intros r q [].
    + intros r Hr. apply in_app_or in Hr. destruct Hr as [Hr|[<-|[]]].
      * destruct (I4 r Hr) as (q & k & v & Hq & Hhq & Hin & Hcq).
        exists q, k, v. repeat split; auto. apply in_or_app. left. exact Hin.
      * exists pid, pid, p. repeat split; auto.
        apply in_or_app. right. left. reflexivity.
Qed.

Lemma dict_by_pid_inv (postings done : list value) (d res : list (value * value)) :
  dict_inv done d -> dict_by_pid postings d = Return res ->
  dict_inv (done ++ postings) res.
Proof.
  revert done d; induction postings as [|p rest IH]; simpl; intros done d HI H.
  - injection H as <-. rewrite app_nil_r. exact HI.
  - inv_bind H. destruct (hashable a) eqn:Hh; [|discriminate].
    replace (done ++ p :: rest) with ((done ++ [p]) ++ rest)
      by (rewrite <- app_assoc; reflexivity).
    eapply IH; [|exact H]. apply dict_inv_set; assumption.
Qed.

(** ** Removing duplicates *)

Lemma dict_inv_nil : dict_inv [] [].
Proof.
  repeat split; try (intros; contradiction). constructor.
Qed.

Lemma dict_values_pids (d : list (value * value)) :
  (forall k v, In (k, v) d ->
     hashable k = true /\
     exists pid, v.["pid"] = Return pid /\ hashable pid = true /\
                 key_code pid = key_code k) ->
  exists pids,
    Forall2 (fun r pid => r.["pid"] = Return pid /\ hashable pid = true)
      (map snd d) pids /\
    map key_code pids = map (fun kv => key_code (fst kv)) d.
Proof.
  induction d as [|[k v] d IH]; intros H.
  - exists []. split; constructor.
  - destruct (H k v (or_introl eq_refl)) as (_ & pid & Hp & Hh & Hc).
    destruct IH as (pids & HF & HM).
    { intros k' v' Hin. apply H. right. exact Hin. }
    exists (pid :: pids). split.
    + constructor; auto.
    + simpl. rewrite Hc, HM. reflexivity.
Qed.

(** [remove_duplicates]: the records kept have pairwise different ids; each
    is the last record of its id in the input; every id of the input is
    kept. *)
Lemma remove_duplicates_spec (raw recs : list value) :
  remove_duplicates raw = Return recs ->
  (exists pids,
      Forall2 (fun r pid => r.["pid"] = Return pid /\ hashable pid = true)
        recs pids /\
      NoDup (map key_code pids))
  /\ (forall r, In r recs ->
        exists l1 l2 pid,
          raw = l1 ++ r :: l2 /\ r.["pid"] = Return pid /\
          forall r' pid', In r' l2 -> r'.["pid"] = Return pid' ->
                          key_eq pid pid' = false)
  /\ (forall p, In p raw ->
        exists pid r pid',
          p.["pid"] = Return pid /\ In r recs /\ r.["pid"] = Return pid' /\
          key_eq pid' pid = true).
Proof.
  unfold remove_duplicates. intros H. inv_bind H. subst recs.
  pose proof (dict_by_pid_inv raw [] [] a dict_inv_nil E) as HI.
  simpl in HI. destruct HI as (I1 & I2 & I3 & I4).
  split; [|split].
  - destruct (dict_values_pids a I1) as (pids & HF & HM).
    exists pids. split; [exact HF|]. rewrite HM. exact I2.
  - intros r Hr. apply in_map_iff in Hr. destruct Hr as ([k v] & <- & Hin).
    simpl. destruct (I1 k v Hin) as (Hk & pid & Hp & Hh & Hc).
    destruct (I3 k v Hin) as (l1 & l2 & -> & Hl2).
    exists l1, l2, pid. repeat split; auto.
    intros r' pid' Hr' Hp'.
    destruct (I4 r') as (q & k' & v' & Hq & Hhq & _ & _).
    { apply in_or_app. right. right. exact Hr'. }
    rewrite Hp' in Hq. injection Hq as <-.
    apply key_eq_code_false; auto.
    intros Ec. apply (Hl2 r' pid' Hr' Hp'). congruence.
  - intros p Hp. destruct (I4 p Hp) as (pid & k & v & Hpid & Hh & Hin & Hc).
    destruct (I1 k v Hin) as (Hk & pid' & Hp' & Hh' & Hc').
    exists pid, v, pid'. repeat split; auto.
    + apply in_map_iff. exists (k, v). auto.
    + apply key_eq_code; auto. congruence.
Qed.

Lemma distinct_codes_apart (ids : list value) :
  Forall (fun v => hashable v = true) ids -> NoDup (map key_code ids) ->
  ForallOrdPairs (fun a b => key_eq a b = false) ids.
Proof.
  induction ids as [|a ids IH]; simpl; intros HF HN.
  - constructor.
  - inversion HF as [|? ? Ha HF']; subst. inversion HN as [|? ? Hnot HN']; subst.
    constructor; [|auto].
    rewrite Forall_forall in *. intros x Hx.
    apply key_eq_code_false; auto.
    intros E. apply Hnot. rewrite E. apply in_map. exact Hx.
Qed.

(** ** The paging loop *)

Lemma index_last {A : Type} (l : list A) (d : A) :
  l <> [] -> index l (-1) = Return (last l d).
Proof.
  intros Hl. destruct (exists_last Hl) as (l' & x & ->).
  unfold index. rewrite last_last.
  change (-1 <? 0) with true. cbv iota zeta.
  assert (Hj : -1 + Z.of_nat (List.length (l' ++ [x])) = Z.of_nat (List.length l')).
  { rewrite length_app, Nat2Z.inj_add. change (List.length [x]) with 1%nat. lia. }
  rewrite Hj.
  assert (H1 : (Z.of_nat (List.length l') <? 0) = false) by (apply Z.ltb_ge; lia).
  assert (H2 : (Z.of_nat (List.length (l' ++ [x])) <=? Z.of_nat (List.length l')) = false).
  { apply Z.leb_gt. rewrite length_app, Nat2Z.inj_add.
    change (List.length [x]) with 1%nat. lia. }
  rewrite H1, H2. simpl.
  rewrite Nat2Z.id, nth_error_app2, Nat.sub_diag by lia. reflexivity.
Qed.

(** Fuel only has to be enough: more of it changes nothing. *)
Lemma while_more_fuel {S R : Type} (body : S -> client (S + R)) (fuel : nat) :
  forall (fuel' : nat) (st : S) (log : list request)
         (r : result R * list request),
    while fuel body st log = Some r -> (fuel <= fuel')%nat ->
    while fuel' body st log = Some r.
Proof.
  induction fuel as [|fuel IH]; intros fuel' st log r H Hle; [discriminate|].
  destruct fuel' as [|fuel']; [lia|].
  cbn [while] in *.
  destruct (body st log) as [[[st'|res]|e] log1]; auto.
  apply IH; [exact H | lia].
Qed.

Section Paging.
Context {platform : Platform}.

(** The loop against a scripted backend whose remaining pages are all
    non-empty and end in a record with a ["pid"]: it takes them all, asks once
    per page, and leaves at the empty page that follows. *)
Lemma while_scripted (ticker_id thread_id : ident) (pages : list (list value)) :
  Forall (fun pg => pg <> [] /\ has_pid (last pg VNone) = true) pages ->
  forall (pre : list (result value)) (acc : list value) (log : list request)
         (fuel : nat),
    List.length log = S (List.length pre) ->
    (List.length pages < fuel)%nat ->
    while fuel
      (next_page
         (scripted (pre ++ map (fun pg => Return (page_of pg)) (pages ++ [[]])))
         ticker_id thread_id)
      (acc, page_of (hd [] (pages ++ [[]]))) log
    = Some (Return (acc ++ List.concat pages),
            log ++ map (fun pg => Postings ticker_id thread_id (cursor_of pg))
                     pages).
Proof.
  induction 1 as [|pg pages [Hne Hpid] HF IH]; intros pre acc log fuel Hlog Hfuel.
  - destruct fuel as [|fuel]; [simpl in Hfuel; lia|].
    simpl. rewrite !app_nil_r. reflexivity.
  - destruct fuel as [|fuel]; [simpl in Hfuel; lia|].
    simpl in Hfuel.
    unfold has_pid in Hpid.
    destruct ((last pg VNone).["pid"]) as [pid|] eqn:Epid; [|discriminate].
    assert (Ecur : (last <- getitem (VList pg) (VInt (-1)) ;; last.["pid"])
                   = Return pid).
    { simpl. rewrite (index_last pg VNone Hne). simpl. exact Epid. }
    cbn [while app hd].
    unfold next_page at 1. unfold lift, cbind, ret.
    change ((page_of pg).["p"]) with (Return (VList pg)).
    assert (Ht : truthy (VList pg) = true) by (destruct pg; [congruence|reflexivity]).
    cbv beta iota. rewrite Ht. cbn [iter]. rewrite Ecur.
    unfold _get_thread_postings_page, http_get.
    assert (Eresp :
      scripted (pre ++ map (fun pg => Return (page_of pg)) (pg :: (pages ++ [[]])))
        log (Postings ticker_id thread_id (if truthy pid then Some pid else None))
      = Return (page_of (hd [] (pages ++ [[]])))).
    { unfold scripted. rewrite Hlog.
      rewrite nth_error_app2 by lia.
      replace (S (List.length pre) - List.length pre)%nat with 1%nat by lia.
      simpl. destruct pages; reflexivity. }
    rewrite Eresp.
    replace (pre ++ map (fun pg => Return (page_of pg)) (pg :: (pages ++ [[]])))
      with ((pre ++ [Return (page_of pg)])
              ++ map (fun pg => Return (page_of pg)) (pages ++ [[]]))
      by (rewrite <- app_assoc; reflexivity).
    rewrite IH.
    + cbn [List.concat map]. unfold cursor_of at 2. rewrite Ecur.
      rewrite <- !app_assoc. reflexivity.
    + rewrite !length_app. simpl. lia.
    + lia.
Qed.

(** Against any backend whose answer number [k] (counting from 0) is a last
    page, the loop is over after at most [k + 1] requests. *)
Lemma while_halts (b : backend) (ticker_id thread_id : ident) (k : nat) :
  (forall log req, List.length log = k ->
     exists pg, b log req = Return pg /\ is_last_page pg = true) ->
  forall (fuel : nat) (acc : list value) (page : value) (log : list request),
    (List.length log <= k + 1)%nat ->
    (List.length log = (k + 1)%nat -> is_last_page page = true) ->
    (k + 1 - List.length log < fuel)%nat ->
    exists r trace,
      while fuel (next_page b ticker_id thread_id) (acc, page) log
      = Some (r, trace) /\ (List.length trace <= k + 1)%nat.
Proof.
  intros Hk. induction fuel as [|fuel IH]; intros acc page log Hlen Hlast Hfuel;
    [lia|].
  cbn [while]. unfold next_page at 1. unfold lift, cbind, ret.
  destruct (page.["p"]) as [p|e] eqn:Ep; [|eauto].
  destruct (truthy p) eqn:Et; [|eauto].
  assert (Hlt : (List.length log <= k)%nat).
  { destruct (Nat.eq_dec (List.length log) (k + 1)) as [Heq|]; [|lia].
    apply Hlast in Heq. unfold is_last_page in Heq.
    rewrite Ep, Et in Heq. discriminate. }
  destruct (iter p) as [items|e]; [|eauto].
  destruct (last <- getitem p (VInt (-1)) ;; last.["pid"]) as [skip|e]; [|eauto].
  unfold _get_thread_postings_page, http_get.
  set (req := Postings ticker_id thread_id _).
  destruct (b log req) as [page'|e] eqn:Eb.
  - apply IH.
    + rewrite length_app. simpl. lia.
    + rewrite length_app. simpl. intros Heq.
      destruct (Hk log req) as (pg & Hpg & Hl); [lia|].
      rewrite Eb in Hpg. injection Hpg as ->. exact Hl.
    + rewrite length_app. simpl. lia.
  - eexists _, _. split; [reflexivity|]. rewrite length_app. simpl. lia.
Qed.

(** The loop returns only at a last page: the one it starts from, or the
    answer to its final request. *)
Lemma while_returns (b : backend) (ticker_id thread_id : ident) :
  forall (fuel : nat) (acc : list value) (page : value) (log : list request)
         (raw : list value) (trace : list request),
    while fuel (next_page b ticker_id thread_id) (acc, page) log
    = Some (Return raw, trace) ->
    (is_last_page page = true /\ trace = log)
    \/ (exists log0 req pg,
          b log0 req = Return pg /\ is_last_page pg = true /\
          trace = log0 ++ [req]).
Proof.
  induction fuel as [|fuel IH]; intros acc page log raw trace H; [discriminate|].
  cbn [while] in H. unfold next_page at 1 in H. unfold lift, cbind, ret in H.
  destruct (page.["p"]) as [p|e] eqn:Ep; [|discriminate].
  destruct (truthy p) eqn:Et.
  - destruct (iter p) as [items|e]; [|discriminate].
    destruct (last <- getitem p (VInt (-1)) ;; last.["pid"]) as [skip|e];
      [|discriminate].
    unfold _get_thread_postings_page, http_get in H.
    set (req := Postings ticker_id thread_id _) in H.
    destruct (b log req) as [page'|e] eqn:Eb; [|discriminate].
    destruct (IH _ _ _ _ _ H) as [(Hl & ->)|Hex]; [|right; exact Hex].
    right. exists log, req, page'. auto.
  - injection H as <- <-. left. split; [|reflexivity].
    unfold is_last_page. rewrite Ep, Et. reflexivity.
Qed.

(** The loop never gets out of a page that is always served again. *)
Lemma while_repeating (ticker_id thread_id : ident) (page p : value)
  (items : list value) (skip : value) :
  page.["p"] = Return p -> truthy p = true -> iter p = Return items ->
  (last <- getitem p (VInt (-1)) ;; last.["pid"]) = Return skip ->
  forall (fuel : nat) (acc : list value) (log : list request),
    while fuel (next_page (repeating page) ticker_id thread_id) (acc, page) log
    = None.
Proof.
  intros Ep Et Ei Es. induction fuel as [|fuel IH]; intros acc log; [reflexivity|].
  cbn [while]. unfold next_page at 1. unfold lift, cbind, ret.
  rewrite Ep, Et, Ei, Es.
  unfold _get_thread_postings_page, http_get, repeating at 1. apply IH.
Qed.

End Paging.

(** ** Ticker postings *)

Section TickerPostings.
Context {platform : Platform}.

Lemma get_thread_postings_Return (b : backend) (fuel : nat)
  (ticker_id thread_id : ident) (log trace : list request) (qs : list Posting) :
  get_thread_postings b fuel ticker_id thread_id log = Some (Return qs, trace) ->
  exists raw recs,
    fetch_pages b fuel ticker_id thread_id log = Some (Return raw, trace) /\
    remove_duplicates raw = Return recs /\
    mapM (posting_of thread_id) recs = Return qs.
Proof.
  unfold get_thread_postings.
  destruct (fetch_pages b fuel ticker_id thread_id log) as [[r log']|];
    [|discriminate].
  intros H. injection H as H <-. inv_bind H. subst r.
  exists a, a0. auto.
Qed.

Lemma posting_of_pid (thread_id : ident) (r : value) (q : Posting) :
  posting_of thread_id r = Return q -> r.["pid"] = Return (Posting.posting_id q).
Proof.
  unfold posting_of. intros H. inv_bind H. subst q. exact E.
Qed.

Lemma postings_ids (thread_id : ident) (recs pids : list value) (qs : list Posting) :
  Forall2 (fun r q => posting_of thread_id r = Return q) recs qs ->
  Forall2 (fun r pid => r.["pid"] = Return pid /\ hashable pid = true) recs pids ->
  map Posting.posting_id qs = pids.
Proof.
  intros H; revert pids; induction H as [|r q recs qs Hq _ IH]; intros pids Hp.
  - inversion Hp. reflexivity.
  - inversion Hp as [|? pid ? pids' [Hpid _] Hrest]; subst. simpl.
    apply posting_of_pid in Hq. rewrite Hpid in Hq. injection Hq as ->.
    f_equal. apply IH. exact Hrest.
Qed.

(** Every id among the accumulated records is the id of a returned
    posting. *)
Lemma postings_cover (thread_id : ident) (raw recs : list value)
  (qs : list Posting) :
  remove_duplicates raw = Return recs ->
  mapM (posting_of thread_id) recs = Return qs ->
  forall p, In p raw ->
    exists pid q,
      p.["pid"] = Return pid /\ In q qs /\
      key_eq (Posting.posting_id q) pid = true.
Proof.
  intros Hdedup Hmap p Hp. apply mapM_Forall2 in Hmap.
  destruct (remove_duplicates_spec raw recs Hdedup) as (_ & _ & Hall).
  destruct (Hall p Hp) as (pid & r & pid' & Hpp & Hr & Hrp & Hk).
  destruct (Forall2_In_l _ _ _ _ Hmap Hr) as (q & Hq & Hrq).
  exists pid, q. repeat split; auto.
  apply posting_of_pid in Hrq. rewrite Hrp in Hrq. injection Hrq as ->.
  exact Hk.
Qed.

(** The paging against a scripted backend of well-formed pages. *)
Lemma fetch_pages_scripted (ticker_id thread_id : ident)
  (pages : list (list value)) (fuel : nat) :
  Forall (fun pg => pg <> [] /\ has_pid (last pg VNone) = true) pages ->
  (List.length pages < fuel)%nat ->
  fetch_pages
    (scripted (map (fun pg => Return (page_of pg)) (pages ++ [[]])))
    fuel ticker_id thread_id []
  = Some (Return (List.concat pages),
          Postings ticker_id thread_id None
            :: map (fun pg => Postings ticker_id thread_id (cursor_of pg)) pages).
Proof.
  intros Hpages Hfuel.
  unfold fetch_pages, _get_thread_postings_page, http_get.
  cbn [truthy].
  assert (E0 : scripted (map (fun pg => Return (page_of pg)) (pages ++ [[]])) []
                 (Postings ticker_id thread_id None)
               = Return (page_of (hd [] (pages ++ [[]])))).
  { unfold scripted. destruct pages; reflexivity. }
  rewrite E0. cbn [app].
  pose proof (while_scripted ticker_id thread_id pages Hpages [] []
                [Postings ticker_id thread_id None] fuel eq_refl Hfuel) as Hw.
  cbn [app] in Hw. exact Hw.
Qed.

Lemma fetch_pages_more_fuel (b : backend) (ticker_id thread_id : ident)
  (fuel fuel' : nat) (log : list request)
  (r : result (list value) * list request) :
  fetch_pages b fuel ticker_id thread_id log = Some r -> (fuel <= fuel')%nat ->
  fetch_pages b fuel' ticker_id thread_id log = Some r.
Proof.
  unfold fetch_pages.
  destruct (_get_thread_postings_page b ticker_id thread_id VNone log)
    as [[page|e] log1]; [|auto].
  apply while_more_fuel.
Qed.

(** Whatever fuel let the paging return, it returned the concatenated
    pages. *)
Lemma fetch_pages_scripted_Return (ticker_id thread_id : ident)
  (pages : list (list value)) (fuel : nat) (raw : list value)
  (trace : list request) :
  Forall (fun pg => pg <> [] /\ has_pid (last pg VNone) = true) pages ->
  fetch_pages
    (scripted (map (fun pg => Return (page_of pg)) (pages ++ [[]])))
    fuel ticker_id thread_id [] = Some (Return raw, trace) ->
  raw = List.concat pages.
Proof.
  intros Hpages H.
  apply (fetch_pages_more_fuel _ _ _ _ (fuel + S (List.length pages))) in H;
    [|lia].
  rewrite (fetch_pages_scripted ticker_id thread_id pages _ Hpages) in H by lia.
  injection H as H _. symmetry. exact H.
Qed.

(** The whole operation against a scripted backend of well-formed pages. *)
Lemma get_thread_postings_scripted (ticker_id thread_id : ident)
  (pages : list (list value)) (fuel : nat) :
  Forall (fun pg => pg <> [] /\ has_pid (last pg VNone) = true) pages ->
  (List.length pages < fuel)%nat ->
  get_thread_postings
    (scripted (map (fun pg => Return (page_of pg)) (pages ++ [[]])))
    fuel ticker_id thread_id []
  = Some (recs <- remove_duplicates (List.concat pages) ;;
          mapM (posting_of thread_id) recs,
          Postings ticker_id thread_id None
            :: map (fun pg => Postings ticker_id thread_id (cursor_of pg)) pages).
Proof.
  intros Hpages Hfuel. unfold get_thread_postings.
  rewrite (fetch_pages_scripted ticker_id thread_id pages fuel Hpages Hfuel).
  reflexivity.
Qed.

End TickerPostings.

(** C1. The postings returned for a ticker thread carry pairwise different
    ids, whatever pages the backend served: each returned posting is built
    from the last record of its id among the accumulated pages, and every id
    of the accumulated pages is returned.  The pages [1, 2], [2, 3], [] give
    exactly the ids 1, 2, 3, posting 2 being the one of the second page. *)
Theorem get_thread_postings_unique_ids :
  (forall (platform : Platform) (b : backend) (fuel : nat)
          (ticker_id thread_id : ident) (log trace : list request)
          (qs : list Posting),
      get_thread_postings b fuel ticker_id thread_id log
      = Some (Return qs, trace) ->
      NoDup (map Posting.posting_id qs) /\
      ForallOrdPairs (fun a b => key_eq a b = false)
        (map Posting.posting_id qs) /\
      exists raw recs,
        fetch_pages b fuel ticker_id thread_id log = Some (Return raw, trace) /\
        Forall2 (fun r q => posting_of thread_id r = Return q) recs qs /\
        (forall r, In r recs ->
           exists l1 l2 pid,
             raw = l1 ++ r :: l2 /\ r.["pid"] = Return pid /\
             forall r' pid', In r' l2 -> r'.["pid"] = Return pid' ->
                             key_eq pid pid' = false) /\
        (forall p, In p raw ->
           exists pid q,
             p.["pid"] = Return pid /\ In q qs /\
             key_eq (Posting.posting_id q) pid = true))
  /\ (exists qs,
        get_thread_postings (platform := utc_host) overlapping_backend 3%nat
          (IdInt 2000) (IdInt 7) []
        = Some (Return qs,
                [Postings (IdInt 2000) (IdInt 7) None;
                 Postings (IdInt 2000) (IdInt 7) (Some (VInt 2));
                 Postings (IdInt 2000) (IdInt 7) (Some (VInt 3))]) /\
        map Posting.posting_id qs = [VInt 1; VInt 2; VInt 3] /\
        map Posting.message qs
        = [VStr "first"; VStr "second, edited"; VStr "third"]).
Proof.
  split.
  - intros platform b fuel ticker_id thread_id log trace qs H.
    apply get_thread_postings_Return in H.
    destruct H as (raw & recs & Hfetch & Hdedup & Hmap0).
    pose proof (mapM_Forall2 _ _ _ Hmap0) as Hmap.
    destruct (remove_duplicates_spec raw recs Hdedup)
      as ((pids & Hpids & Hnodup) & Hlast & Hall).
    pose proof (postings_ids thread_id recs pids qs Hmap Hpids) as Hids.
    assert (Hhash : Forall (fun v => hashable v = true) pids).
    { clear -Hpids. induction Hpids as [|? ? ? ? [_ Hh]]; constructor; auto. }
    rewrite Hids. split; [|split].
    + eapply NoDup_map_inv. exact Hnodup.
    + apply distinct_codes_apart; assumption.
    + exists raw, recs. repeat split; auto.
      eapply postings_cover; eassumption.
  - eexists. split; [vm_compute; reflexivity|]. split; reflexivity.
Qed.

Lemma get_thread_postings_unique_ids_witness :
  exists qs trace,
    get_thread_postings (platform := utc_host) overlapping_backend 3%nat
      (IdInt 2000) (IdInt 7) [] = Some (Return qs, trace) /\
    NoDup (map Posting.posting_id qs).
Proof.
  eexists _, _. split; [vm_compute; reflexivity|].
  eapply (proj1 get_thread_postings_unique_ids utc_host overlapping_backend 3%nat
            (IdInt 2000) (IdInt 7) []).
  vm_compute. reflexivity.
Defined.

(** C2 does not hold as the specification states it: against a backend that
    keeps serving the same non-empty page the operation returns for no amount
    of fuel. *)
Lemma paging_may_never_halt :
  ~ (exists fuel,
       get_thread_postings (platform := utc_host) stuck_backend fuel
         (IdInt 2000) (IdInt 7) [] <> None).
Proof.
  intros (fuel & H). apply H.
  unfold get_thread_postings, fetch_pages, _get_thread_postings_page, http_get.
  cbn [truthy]. unfold stuck_backend at 1, repeating at 1.
  unfold stuck_backend.
  rewrite (while_repeating (IdInt 2000) (IdInt 7)
             (page_of [ticker_record 1 "first"])
             (VList [ticker_record 1 "first"]) [ticker_record 1 "first"]
             (VInt 1)); reflexivity.
Qed.

(** C2, amended.  The paging is over as soon as the backend serves a last
    page: if its answer number [k] (from 0) is one, whatever came before,
    overlapping or not, the operation ends within [k + 1] requests, with a
    list or with an exception.  It returns a list only when the answer to its
    final request was a last page.  Nothing makes the cursor advance: against
    a backend that serves one and the same non-empty page to every request
    the operation does not return, whatever the fuel. *)
Theorem get_thread_postings_halts_at_last_page :
  forall (platform : Platform) (ticker_id thread_id : ident),
    (forall (b : backend) (k : nat),
        (forall log req, List.length log = k ->
           exists pg, b log req = Return pg /\ is_last_page pg = true) ->
        forall fuel : nat, (k < fuel)%nat ->
          exists r trace,
            get_thread_postings b fuel ticker_id thread_id [] = Some (r, trace)
            /\ (List.length trace <= k + 1)%nat)
    /\ (forall (b : backend) (fuel : nat) (qs : list Posting)
               (trace : list request),
          get_thread_postings b fuel ticker_id thread_id []
          = Some (Return qs, trace) ->
          exists log0 req pg,
            trace = log0 ++ [req] /\ b log0 req = Return pg /\
            is_last_page pg = true)
    /\ (forall (page p skip : value) (items : list value),
          page.["p"] = Return p -> truthy p = true ->
          iter p = Return items ->
          (last <- getitem p (VInt (-1)) ;; last.["pid"]) = Return skip ->
          forall fuel : nat,
            get_thread_postings (repeating page) fuel ticker_id thread_id []
            = None).
Proof.
  intros platform ticker_id thread_id. split; [|split].
  - intros b k Hk fuel Hfuel.
    unfold get_thread_postings, fetch_pages, _get_thread_postings_page, http_get.
    cbn [truthy app].
    destruct (b [] (Postings ticker_id thread_id None)) as [page|e] eqn:Eb.
    + destruct (while_halts b ticker_id thread_id k Hk fuel [] page
                  [Postings ticker_id thread_id None])
        as (r & trace & Hw & Hlen).
      * simpl. lia.
      * simpl. intros Hk0.
        destruct (Hk [] (Postings ticker_id thread_id None)) as (pg & Hpg & Hl);
          [simpl; lia|].
        rewrite Eb in Hpg. injection Hpg as ->. exact Hl.
      * simpl. lia.
      * rewrite Hw. eexists _, _. split; [reflexivity | exact Hlen].
    + eexists _, _. split; [reflexivity | simpl; lia].
  - intros b fuel qs trace H.
    apply get_thread_postings_Return in H.
    destruct H as (raw & recs & Hfetch & _ & _).
    unfold fetch_pages, _get_thread_postings_page, http_get in Hfetch.
    cbn [truthy app] in Hfetch.
    destruct (b [] (Postings ticker_id thread_id None)) as [page|e] eqn:Eb;
      [|discriminate].
    destruct (while_returns b ticker_id thread_id _ _ _ _ _ _ Hfetch)
      as [(Hl & ->)|(log0 & req & pg & Hb & Hl & ->)].
    + exists [], (Postings ticker_id thread_id None), page. auto.
    + exists log0, req, pg. auto.
  - intros page p skip items Hp Ht Hi Hs fuel.
    unfold get_thread_postings, fetch_pages, _get_thread_postings_page, http_get.
    cbn [truthy]. unfold repeating at 1.
    rewrite (while_repeating ticker_id thread_id page p items skip Hp Ht Hi Hs).
    reflexivity.
Qed.

Lemma get_thread_postings_halts_at_last_page_witness :
  exists r trace,
    get_thread_postings (platform := utc_host) overlapping_backend 3%nat
      (IdInt 2000) (IdInt 7) [] = Some (r, trace)
    /\ (List.length trace <= 2 + 1)%nat.
Proof.
  apply (proj1 (get_thread_postings_halts_at_last_page utc_host
                  (IdInt 2000) (IdInt 7)) overlapping_backend 2%nat).
  - intros log req Hlen. unfold overlapping_backend, scripted.
    rewrite Hlen. simpl. eexists. split; reflexivity.
  - lia.
Defined.

(** C3. Against a mock backend serving N non-empty pages of postings and
    then an empty one, the operation issues exactly N + 1 requests, the first
    without a cursor and each further one with the cursor of the page before,
    and its result is the deduplicated concatenation of the N pages, mapped to
    postings: every id of the pages is among the returned ones.  With N = 0
    the result is the empty list after one request. *)
Theorem get_thread_postings_pages :
  forall (platform : Platform) (pages : list (list value))
         (ticker_id thread_id : ident) (fuel : nat),
    Forall (fun pg => pg <> [] /\ has_pid (last pg VNone) = true) pages ->
    (List.length pages < fuel)%nat ->
    exists r trace,
      get_thread_postings
        (scripted (map (fun pg => Return (page_of pg)) (pages ++ [[]])))
        fuel ticker_id thread_id [] = Some (r, trace)
      /\ List.length trace = S (List.length pages)
      /\ trace = Postings ticker_id thread_id None
                  :: map (fun pg => Postings ticker_id thread_id (cursor_of pg))
                       pages
      /\ r = (recs <- remove_duplicates (List.concat pages) ;;
              mapM (posting_of thread_id) recs)
      /\ (forall qs, r = Return qs ->
            forall pg p, In pg pages -> In p pg ->
              exists pid q,
                p.["pid"] = Return pid /\ In q qs /\
                key_eq (Posting.posting_id q) pid = true)
      /\ (pages = [] -> r = Return []).
Proof.
  intros platform pages ticker_id thread_id fuel Hpages Hfuel.
  eexists _, _. split.
  { apply get_thread_postings_scripted; assumption. }
  split; [simpl; rewrite length_map; reflexivity|].
  split; [reflexivity|]. split; [reflexivity|]. split.
  - intros qs Hr pg p Hpg Hp. inv_bind Hr.
    eapply postings_cover; try eassumption.
    apply in_concat. exists pg. auto.
  - intros ->. reflexivity.
Qed.

Lemma get_thread_postings_pages_witness :
  exists r trace,
    get_thread_postings (platform := utc_host) overlapping_backend 3%nat
      (IdInt 2000) (IdInt 7) [] = Some (r, trace)
    /\ List.length trace = 3%nat.
Proof.
  destruct (get_thread_postings_pages utc_host overlapping_pages
              (IdInt 2000) (IdInt 7) 3%nat)
    as (r & trace & H & Hlen & _).
  - repeat constructor; simpl; discriminate.
  - simpl. lia.
  - exists r, trace. split; [exact H | exact Hlen].
Defined.

(** ** Forum postings *)

Section ForumPostings.
Context {platform : Platform}.

(** The postings returned are those of the published nodes of the flattened
    response, one for one and in order. *)
Lemma get_forum_postings_Return (b : backend) (article_id : ident)
  (log log' : list request) (qs : list Posting) :
  get_forum_postings b article_id log = (Return qs, log') ->
  exists forum_id log1 response raw,
    b log1 (ThreadsByForumQuery forum_id 100000 18) = Return response /\
    raw_postings_of response = Return raw /\
    Forall (fun p => exists status, p.["lifecycleStatus"] = Return status) raw /\
    Forall2 (fun p q => forum_posting_of p = Return q)
      (filter lifecycle_published raw) qs.
Proof.
  unfold get_forum_postings, _get_forum_id, cbind, http_get, lift.
  destruct (b log (GetForumInfo article_id)) as [info|e]; [|discriminate].
  destruct (data <- info.["data"] ;; forum <- data.["getForumByContextUri"] ;;
            forum.["id"]) as [forum_id|e]; [|discriminate].
  destruct (b (log ++ [GetForumInfo article_id])
              (ThreadsByForumQuery forum_id 100000 18))
    as [response|e] eqn:Eb; [|discriminate].
  intros H. injection H as H _. inv_bind H.
  exists forum_id, (log ++ [GetForumInfo article_id]), response, a.
  split; [exact Eb|]. split; [exact E|].
  apply filterMapM_Return in H. destruct H as (keep & Hkeep & Hmap).
  split.
  - eapply Forall_impl; [|exact Hkeep]. cbv beta. intros p Hp.
    unfold is_published in Hp.
    destruct (p.["lifecycleStatus"]) as [st|]; [eauto | discriminate].
  - apply mapM_Forall2.
    rewrite (filter_ext_in lifecycle_published keep); [exact Hmap|].
    rewrite Forall_forall in Hkeep. intros p Hp. specialize (Hkeep p Hp).
    unfold is_published in Hkeep. unfold lifecycle_published.
    destruct (p.["lifecycleStatus"]) as [st|]; simpl in Hkeep; congruence.
Qed.

(** The fields of a forum posting, read off the node. *)
Lemma forum_posting_of_Return (p : value) (q : Posting) :
  forum_posting_of p = Return q ->
  exists id root author author_id author_name history created
         reactions aggregated up down title text,
    p.["id"] = Return id /\ p.["rootPostingId"] = Return root /\
    p.["author"] = Return author /\ author.["id"] = Return author_id /\
    author.["name"] = Return author_name /\
    p.["history"] = Return history /\ history.["created"] = Return created /\
    dateparser_parse created = Return (Posting.published q) /\
    p.["reactions"] = Return reactions /\
    reactions.["aggregated"] = Return aggregated /\
    getitem aggregated (VInt 0) = Return up /\
    up.["value"] = Return (Posting.upvotes q) /\
    getitem aggregated (VInt 1) = Return down /\
    down.["value"] = Return (Posting.downvotes q) /\
    p.["title"] = Return title /\ p.["text"] = Return text /\
    q = Posting.mk id (if py_eq id root then VNone else root)
          (User.mk author_id author_name) None (Posting.published q)
          (or_none title) (or_none text)
          (Posting.upvotes q) (Posting.downvotes q).
Proof.
  unfold forum_posting_of. intros H. inv_bind H. subst q. simpl.
  do 13 eexists. repeat (split; [eassumption|]). reflexivity.
Qed.

Lemma lifecycle_published_iff (p : value) :
  lifecycle_published p = true <->
  p.["lifecycleStatus"] = Return (VStr "Published").
Proof.
  unfold lifecycle_published.
  destruct (p.["lifecycleStatus"]) as [st|e]; [|split; discriminate].
  destruct st; simpl; try (split; discriminate).
  rewrite String.eqb_eq. split; [intros ->; reflexivity | intros H; congruence].
Qed.

End ForumPostings.

(** C4 does not hold as the specification states it: a node whose
    [rootPostingId] is null gets a null [parent_id] although its id differs
    from its [rootPostingId]. *)
Lemma parent_id_null_without_root :
  exists q log',
    get_forum_postings (platform := utc_host) (forum_backend [node_without_root])
      (IdInt 1) [] = (Return [q], log') /\
    node_without_root.["id"] = Return (VInt 5) /\
    node_without_root.["rootPostingId"] = Return VNone /\
    ~ (Posting.parent_id q = VNone <-> py_eq (VInt 5) VNone = true).
Proof.
  eexists _, _. split; [vm_compute; reflexivity|].
  split; [reflexivity|]. split; [reflexivity|].
  simpl. intros [H _]. specialize (H eq_refl). discriminate.
Qed.

(** C4, amended.  Every posting of the forum result is built from a node of
    the flattened response; its [parent_id] is null exactly when the node's
    id equals the node's [rootPostingId] or that [rootPostingId] is null, and
    is the [rootPostingId] otherwise.  In a thread 20 > 21 > 22 the reply 22
    gets the root 20 as parent, not 21. *)
Theorem forum_parent_id_is_root :
  (forall (platform : Platform) (b : backend) (article_id : ident)
          (log log' : list request) (qs : list Posting),
      get_forum_postings b article_id log = (Return qs, log') ->
      exists forum_id log1 response raw,
        b log1 (ThreadsByForumQuery forum_id 100000 18) = Return response /\
        raw_postings_of response = Return raw /\
        Forall (fun q =>
                  exists p id root,
                    In p raw /\ p.["id"] = Return id /\
                    p.["rootPostingId"] = Return root /\
                    Posting.posting_id q = id /\
                    (Posting.parent_id q = VNone <->
                     py_eq id root = true \/ root = VNone) /\
                    (py_eq id root = false -> Posting.parent_id q = root))
          qs)
  /\ (exists qs log',
        get_forum_postings (platform := utc_host)
          (forum_backend [thread_with_nested_reply]) (IdInt 1) []
        = (Return qs, log') /\
        map (fun q => (Posting.posting_id q, Posting.parent_id q)) qs
        = [(VInt 20, VNone); (VInt 21, VInt 20); (VInt 22, VInt 20)]).
Proof.
  split.
  - intros platform b article_id log log' qs H.
    apply get_forum_postings_Return in H.
    destruct H as (forum_id & log1 & response & raw & Hb & Hraw & _ & HF).
    exists forum_id, log1, response, raw. split; [exact Hb|]. split; [exact Hraw|].
    rewrite Forall_forall. intros q Hq.
    destruct (Forall2_In_r _ _ _ _ HF Hq) as (p & Hp & Hpq).
    apply filter_In in Hp. destruct Hp as (Hp & _).
    apply forum_posting_of_Return in Hpq.
    destruct Hpq as (id & root & ? & ? & ? & ? & ? & ? & ? & ? & ? & ? & ?
                     & Hid & Hroot & _ & _ & _ & _ & _ & _ & _ & _ & _ & _
                     & _ & _ & _ & _ & Hq').
    exists p, id, root. rewrite Hq'. simpl.
    repeat split; auto.
    + destruct (py_eq id root); [auto|]. intros ->. auto.
    + intros [->| ->]; [reflexivity|]. destruct (py_eq id VNone); reflexivity.
    + intros ->. reflexivity.
  - eexists _, _. split; [vm_compute; reflexivity | reflexivity].
Qed.

Lemma forum_parent_id_is_root_witness :
  exists raw,
    Forall (fun q =>
              exists p id root,
                In p raw /\ p.["id"] = Return id /\
                p.["rootPostingId"] = Return root /\
                Posting.posting_id q = id /\
                (Posting.parent_id q = VNone <->
                 py_eq id root = true \/ root = VNone) /\
                (py_eq id root = false -> Posting.parent_id q = root))
      (match fst (get_forum_postings (platform := utc_host)
                    (forum_backend [thread_with_nested_reply]) (IdInt 1) [])
       with
       | Return qs => qs
       | Raise _ => []
       end).
Proof.
  destruct (proj1 forum_parent_id_is_root utc_host
              (forum_backend [thread_with_nested_reply]) (IdInt 1) []
              (snd (get_forum_postings (platform := utc_host)
                      (forum_backend [thread_with_nested_reply]) (IdInt 1) []))
              (match fst (get_forum_postings (platform := utc_host)
                            (forum_backend [thread_with_nested_reply])
                            (IdInt 1) [])
               with
               | Return qs => qs
               | Raise _ => []
               end))
    as (_ & _ & _ & raw & _ & _ & H).
  - vm_compute. reflexivity.
  - exists raw. exact H.
Defined.

(** C5. A node of the flattened reply tree is in the forum result exactly
    when its [lifecycleStatus] is ["Published"]: the result maps the published
    nodes one for one, in order.  Of the thread 10 > (11 deleted, 12) the
    nodes 10 and 12 are returned.  The ticker operation has no such filter:
    every record of every page served has its id among the postings
    returned. *)
Theorem published_only_in_forum :
  (forall (platform : Platform) (b : backend) (article_id : ident)
          (log log' : list request) (qs : list Posting),
      get_forum_postings b article_id log = (Return qs, log') ->
      exists forum_id log1 response raw,
        b log1 (ThreadsByForumQuery forum_id 100000 18) = Return response /\
        raw_postings_of response = Return raw /\
        Forall (fun p => lifecycle_published p = true <->
                         p.["lifecycleStatus"] = Return (VStr "Published")) raw /\
        Forall2 (fun p q => forum_posting_of p = Return q /\
                            p.["id"] = Return (Posting.posting_id q))
          (filter lifecycle_published raw) qs)
  /\ (exists raw qs log',
        raw_postings_of
          (VDict [("data", VDict [("getForumRootPostings",
             VDict [("edges",
                     VList [VDict [("node", thread_with_deleted_reply)]])])])])
        = Return raw /\
        mapM (fun p => p.["id"]) raw = Return [VInt 10; VInt 11; VInt 12] /\
        get_forum_postings (platform := utc_host)
          (forum_backend [thread_with_deleted_reply]) (IdInt 1) []
        = (Return qs, log') /\
        map Posting.posting_id qs = [VInt 10; VInt 12])
  /\ (forall (platform : Platform) (pages : list (list value))
             (ticker_id thread_id : ident) (fuel : nat) (qs : list Posting)
             (trace : list request),
        Forall (fun pg => pg <> [] /\ has_pid (last pg VNone) = true) pages ->
        get_thread_postings
          (scripted (map (fun pg => Return (page_of pg)) (pages ++ [[]])))
          fuel ticker_id thread_id [] = Some (Return qs, trace) ->
        forall pg p, In pg pages -> In p pg ->
          exists pid q,
            p.["pid"] = Return pid /\ In q qs /\
            key_eq (Posting.posting_id q) pid = true).
Proof.
  split; [|split].
  - intros platform b article_id log log' qs H.
    apply get_forum_postings_Return in H.
    destruct H as (forum_id & log1 & response & raw & Hb & Hraw & _ & HF).
    exists forum_id, log1, response, raw. split; [exact Hb|]. split; [exact Hraw|].
    split.
    + rewrite Forall_forall. intros p _. apply lifecycle_published_iff.
    + eapply Forall2_impl; [|exact HF]. cbv beta. intros p q Hpq.
      split; [exact Hpq|].
      apply forum_posting_of_Return in Hpq.
      destruct Hpq as (id & root & ? & ? & ? & ? & ? & ? & ? & ? & ? & ? & ?
                       & Hid & _ & _ & _ & _ & _ & _ & _ & _ & _ & _ & _
                       & _ & _ & _ & _ & Hq').
      rewrite Hq'. simpl. exact Hid.
  - eexists _, _, _. split; [vm_compute; reflexivity|].
    split; [reflexivity|]. split; [vm_compute; reflexivity | reflexivity].
  - intros platform pages ticker_id thread_id fuel qs trace Hpages H pg p Hpg Hp.
    apply get_thread_postings_Return in H.
    destruct H as (raw & recs & Hfetch & Hdedup & Hmap).
    apply fetch_pages_scripted_Return in Hfetch; [|exact Hpages]. subst raw.
    eapply postings_cover; try eassumption.
    apply in_concat. exists pg. auto.
Qed.

Lemma published_only_in_forum_witness :
  exists pid q,
    (ticker_record 2 "second").["pid"] = Return pid /\
    In q (match get_thread_postings (platform := utc_host) overlapping_backend
                  3%nat (IdInt 2000) (IdInt 7) []
          with
          | Some (Return qs, _) => qs
          | _ => []
          end) /\
    key_eq (Posting.posting_id q) pid = true.
Proof.
  eapply (proj2 (proj2 published_only_in_forum) utc_host overlapping_pages
            (IdInt 2000) (IdInt 7) 3%nat _ _).
  - repeat constructor; simpl; discriminate.
  - vm_compute. reflexivity.
  - left. reflexivity.
  - simpl. right. left. reflexivity.
Defined.

(** ** Flattening *)

(** [linearize] on a list, as the source has it: the edges, then
    [linearize(e["replies"])] for each edge. *)
Lemma linearize_VList (es : list value) :
  linearize (VList es)
  = (tails <- mapM (fun e => r <- e.["replies"] ;; linearize r) es ;;
     Return (es ++ List.concat tails)).
Proof.
  cbn [linearize].
  match goal with
  | |- bind (?each es) _ = _ =>
      assert (Heach : forall l,
                each l
                = (tails <- mapM (fun e => r <- e.["replies"] ;; linearize r) l ;;
                   Return (List.concat tails)))
  end.
  { induction l as [|e l IH]; [reflexivity|].
    cbn [mapM]. rewrite IH. clear IH.
    assert (He : forall d,
               (fix find (d : list (string * value)) : result (list value) :=
                  match d with
                  | [] => Raise (KeyError (VStr "replies"))
                  | (k, v) :: d' =>
                      if String.eqb "replies" k then linearize v else find d'
                  end) d
               = (r <- (VDict d).["replies"] ;; linearize r)).
    { induction d as [|[k v] d IHd]; [reflexivity|].
      unfold subscript, getitem in *. cbn [lookup].
      destruct (String.eqb "replies" k); [reflexivity|]. exact IHd. }
    destruct e as [| | | | |d]; try reflexivity.
    rewrite He.
    destruct (r <- (VDict d).["replies"] ;; linearize r) as [sub|err];
      [|reflexivity].
    cbn [bind].
    destruct (mapM (fun e => r <- e.["replies"] ;; linearize r) l);
      reflexivity. }
  rewrite Heach.
  destruct (mapM (fun e => r <- e.["replies"] ;; linearize r) es); reflexivity.
Qed.

Lemma tree_induction (P : tree -> Prop) :
  (forall fields rs, Forall P rs -> P (Node fields rs)) -> forall t, P t.
Proof.
  intros H. fix IH 1. intros [fields rs]. apply H.
  induction rs as [|r rs IHrs]; constructor; [apply IH | exact IHrs].
Qed.

Lemma below_replies (t : tree) : below t = siblings_first (replies_of t).
Proof. destruct t. reflexivity. Qed.

(** On the dicts of a forest, [linearize] succeeds and yields the dicts of
    the nodes, siblings first. *)
Lemma linearize_forest (forest : list tree) :
  linearize (VList (map node_value forest))
  = Return (map node_value (siblings_first forest)).
Proof.
  assert (Hsub : forall f,
             Forall (fun t => linearize (VList (map node_value (replies_of t)))
                              = Return (map node_value (below t))) f ->
             mapM (fun e => r <- e.["replies"] ;; linearize r)
               (map node_value f)
             = Return (map (fun t => map node_value (below t)) f)).
  { induction 1 as [|t f Ht _ IH]; [reflexivity|].
    cbn [map mapM]. rewrite IH.
    destruct t as [fields rs]. cbn [node_value].
    change ((VDict (("replies", VList (map node_value rs)) :: fields)).["replies"])
      with (Return (VList (map node_value rs))).
    cbn [bind]. cbn [replies_of] in Ht. rewrite Ht. reflexivity. }
  assert (Hall : forall t,
             linearize (VList (map node_value (replies_of t)))
             = Return (map node_value (below t))).
  { induction t as [fields rs IH] using tree_induction.
    cbn [replies_of]. rewrite linearize_VList, (Hsub rs IH). cbn [bind below].
    rewrite map_app, flat_map_concat_map, concat_map, map_map. reflexivity. }
  rewrite linearize_VList, Hsub.
  - cbn [bind]. unfold siblings_first.
    rewrite map_app, flat_map_concat_map, concat_map, map_map. reflexivity.
  - rewrite Forall_forall. intros t _. apply Hall.
Qed.

Lemma siblings_first_length (forest : list tree) :
  List.length (siblings_first forest) = list_sum (map node_count forest).
Proof.
  assert (Hsub : forall f,
             Forall (fun t => List.length (below t)
                              = list_sum (map node_count (replies_of t))) f ->
             List.length (f ++ flat_map below f) = list_sum (map node_count f)).
  { induction 1 as [|t f Ht _ IH]; [reflexivity|].
    destruct t as [fields rs]. cbn [replies_of] in Ht.
    change (list_sum (map node_count (Node fields rs :: f)))
      with (S (list_sum (map node_count rs)) + list_sum (map node_count f))%nat.
    rewrite <- Ht, <- IH. cbn [flat_map app List.length].
    rewrite !length_app. lia. }
  assert (Hall : forall t, List.length (below t)
                           = list_sum (map node_count (replies_of t))).
  { induction t as [fields rs IH] using tree_induction.
    cbn [below replies_of]. apply Hsub. exact IH. }
  apply Hsub. rewrite Forall_forall. intros t _. apply Hall.
Qed.

Lemma siblings_first_preorder (forest : list tree) :
  Permutation (siblings_first forest) (flat_map preorder forest).
Proof.
  assert (Hsub : forall f,
             Forall (fun t => Permutation (below t)
                                (flat_map preorder (replies_of t))) f ->
             Permutation (f ++ flat_map below f) (flat_map preorder f)).
  { induction 1 as [|t f Ht _ IH]; [constructor|].
    destruct t as [fields rs]. cbn [replies_of] in Ht.
    cbn [flat_map preorder app]. constructor.
    rewrite Permutation_app_swap_app.
    apply Permutation_app; [exact Ht | exact IH]. }
  assert (Hall : forall t, Permutation (below t)
                             (flat_map preorder (replies_of t))).
  { induction t as [fields rs IH] using tree_induction.
    cbn [below replies_of]. apply Hsub. exact IH. }
  apply Hsub. rewrite Forall_forall. intros t _. apply Hall.
Qed.

(** What lies below a sibling is one stretch of the flattened list. *)
Lemma siblings_first_stretch (forest : list tree) (u : tree) :
  In u forest ->
  exists o1 o2, siblings_first forest = o1 ++ below u ++ o2.
Proof.
  intros Hu. apply in_split in Hu. destruct Hu as (a & c & ->).
  unfold siblings_first. rewrite flat_map_app. cbn [flat_map].
  exists ((a ++ u :: c) ++ flat_map below a), (flat_map below c).
  rewrite <- !app_assoc. reflexivity.
Qed.

Lemma within_stretch (forest : list tree) (n : tree) :
  within n forest ->
  exists o1 o2, siblings_first forest = o1 ++ below n ++ o2.
Proof.
  induction 1 as [forest Hn|forest u Hu _ IH].
  - apply siblings_first_stretch. exact Hn.
  - destruct (siblings_first_stretch forest u Hu) as (p1 & p2 & ->).
    destruct IH as (o1 & o2 & IH). rewrite below_replies, IH.
    exists (p1 ++ o1), (o2 ++ p2). rewrite <- !app_assoc. reflexivity.
Qed.

Lemma within_In (forest : list tree) (t : tree) :
  within t forest -> In t (siblings_first forest).
Proof.
  induction 1 as [forest Ht|forest u Hu _ IH].
  - unfold siblings_first. apply in_or_app. left. exact Ht.
  - destruct (siblings_first_stretch forest u Hu) as (p1 & p2 & ->).
    apply in_or_app. right. apply in_or_app. left.
    rewrite below_replies. exact IH.
Qed.

(** A node comes before everything below it. *)
Lemma ancestor_first (forest : list tree) (n m : tree) :
  within n forest -> within m (replies_of n) ->
  exists l1 l2 l3, siblings_first forest = l1 ++ n :: l2 ++ m :: l3.
Proof.
  intros Hn Hm. induction Hn as [forest Hn|forest u Hu _ IH].
  - apply within_In in Hm. rewrite <- below_replies in Hm.
    pose proof Hn as Hsplit. apply in_split in Hsplit.
    destruct Hsplit as (a & c & ->).
    assert (Hin : In m (flat_map below (a ++ n :: c))).
    { apply in_flat_map. exists n. split; [exact Hn | exact Hm]. }
    apply in_split in Hin. destruct Hin as (x & y & Hxy).
    exists a, (c ++ x), y. unfold siblings_first. rewrite Hxy.
    rewrite <- !app_assoc. reflexivity.
  - destruct (siblings_first_stretch forest u Hu) as (p1 & p2 & ->).
    destruct IH as (l1 & l2 & l3 & IH').
    rewrite below_replies, IH'.
    exists (p1 ++ l1), l2, (l3 ++ p2).
    rewrite <- !app_assoc. cbn [app]. rewrite <- !app_assoc. reflexivity.
Qed.

(** C6 does not hold as the specification states it: for the thread 1 > (2 >
    4, 3) pre-order is 1, 2, 4, 3, and [linearize] gives 1, 2, 3, 4. *)
Lemma linearize_not_preorder :
  linearize (VList (map node_value small_forest))
  <> Return (map node_value (flat_map preorder small_forest)).
Proof.
  vm_compute. intros H. discriminate H.
Qed.

(** C6, amended.  [linearize] of a list is the list itself followed by
    [linearize(e["replies"])] for each of its elements in turn.  So it turns
    every reply forest whose nodes carry their list of replies into a flat
    list of its nodes: as many as the forest has nodes, the same nodes a
    pre-order traversal visits, every node before all the nodes below it, and
    each list of siblings as one stretch in the order of the backend.  The
    order is siblings first, not pre-order. *)
Theorem linearize_siblings_first :
  (forall es : list value,
      linearize (VList es)
      = (tails <- mapM (fun e => r <- e.["replies"] ;; linearize r) es ;;
         Return (es ++ List.concat tails)))
  /\ (forall forest : list tree,
      exists out,
        linearize (VList (map node_value forest))
        = Return (map node_value out) /\
        List.length out = list_sum (map node_count forest) /\
        Permutation out (flat_map preorder forest) /\
        (forall n m, within n forest -> within m (replies_of n) ->
           exists l1 l2 l3, out = l1 ++ n :: l2 ++ m :: l3) /\
        (forall n, within n forest ->
           exists l1 l2, out = l1 ++ replies_of n ++ l2) /\
        out = forest
              ++ flat_map (fun t => siblings_first (replies_of t)) forest).
Proof.
  split; [exact linearize_VList|].
  intros forest. exists (siblings_first forest).
  split; [apply linearize_forest|].
  split; [apply siblings_first_length|].
  split; [apply siblings_first_preorder|].
  split; [intros n m; apply ancestor_first|].
  split.
  - intros n Hn. destruct (within_stretch forest n Hn) as (o1 & o2 & ->).
    rewrite below_replies. unfold siblings_first at 1.
    exists o1, (flat_map below (replies_of n) ++ o2).
    rewrite <- !app_assoc. reflexivity.
  - unfold siblings_first at 1. f_equal.
    apply flat_map_ext. intros t. apply below_replies.
Qed.

Lemma linearize_siblings_first_witness :
  exists out l1 l2 l3,
    linearize (VList (map node_value small_forest))
    = Return (map node_value out) /\
    out = l1 ++ Node [("id", VInt 2)] [Node [("id", VInt 4)] []]
             :: l2 ++ Node [("id", VInt 4)] [] :: l3.
Proof.
  destruct (proj2 linearize_siblings_first small_forest)
    as (out & Hout & _ & _ & Hbefore & _).
  destruct (Hbefore (Node [("id", VInt 2)] [Node [("id", VInt 4)] []])
              (Node [("id", VInt 4)] []))
    as (l1 & l2 & l3 & Hsplit).
  - eapply within_deeper; [left; reflexivity|].
    apply within_top. simpl. left. reflexivity.
  - apply within_top. simpl. left. reflexivity.
  - exists out, l1, l2, l3. split; [exact Hout | exact Hsplit].
Defined.

(** ** The three mappings, field by field *)

Section Mappings.
Context {platform : Platform}.

Lemma thread_of_Return (ticker_id : ident) (t : value) (th : Thread) :
  thread_of ticker_id t = Return th ->
  exists id ctd parsed ticker hl cm cid cn vp vn,
    t.["id"] = Return id /\ t.["ctd"] = Return ctd /\
    dateparser_parse ctd = Return parsed /\
    astimezone_utc parsed = Return (Thread.published th) /\
    py_int ticker_id = Return ticker /\
    get t "hl" = Return hl /\ get t "cm" = Return cm /\
    t.["cid"] = Return cid /\ t.["cn"] = Return cn /\
    t.["vp"] = Return vp /\ t.["vn"] = Return vn /\
    th = Thread.mk id (Thread.published th) ticker (or_none hl) (or_none cm)
           (User.mk cid cn) vp vn.
Proof.
  unfold thread_of. intros H. inv_bind H. subst th. simpl.
  do 10 eexists. repeat (split; [eassumption|]). reflexivity.
Qed.

Lemma posting_of_Return (thread_id : ident) (p : value) (q : Posting) :
  posting_of thread_id p = Return q ->
  exists pid ppid cid cn thread cd parsed hl tx vp vn,
    p.["pid"] = Return pid /\ p.["ppid"] = Return ppid /\
    p.["cid"] = Return cid /\ p.["cn"] = Return cn /\
    py_int thread_id = Return thread /\ p.["cd"] = Return cd /\
    dateparser_parse cd = Return parsed /\
    astimezone_utc parsed = Return (Posting.published q) /\
    get p "hl" = Return hl /\ get p "tx" = Return tx /\
    p.["vp"] = Return vp /\ p.["vn"] = Return vn /\
    q = Posting.mk pid ppid (User.mk cid cn) (Some thread)
          (Posting.published q) (or_none hl) (or_none tx) vp vn.
Proof.
  unfold posting_of. intros H. inv_bind H. subst q. simpl.
  do 11 eexists. repeat (split; [eassumption|]). reflexivity.
Qed.

Lemma get_ticker_threads_Return (b : backend) (ticker_id : ident)
  (log log' : list request) (ths : list Thread) :
  get_ticker_threads b ticker_id log = (Return ths, log') ->
  exists body rcs ts,
    b log (Redcontent ticker_id 1000000) = Return body /\
    body.["rcs"] = Return rcs /\ iter rcs = Return ts /\
    Forall2 (fun t th => thread_of ticker_id t = Return th) ts ths.
Proof.
  unfold get_ticker_threads, cbind, http_get, lift.
  destruct (b log (Redcontent ticker_id 1000000)) as [body|e]; [|discriminate].
  intros H. injection H as H _. inv_bind H.
  exists body, a, a0. repeat split; auto. apply mapM_Forall2. exact H.
Qed.

(** [astimezone(pytz.utc)] always hands back a value in UTC. *)
Lemma astimezone_utc_tzinfo (dt dt' : datetime) :
  astimezone_utc dt = Return dt' -> tzinfo dt' = Some 0.
Proof.
  unfold astimezone_utc, shift_to.
  match goal with |- context [if ?c then _ else _] => destruct c end;
    [|discriminate].
  destruct (_ord2ymd _) as [[y m] d]. intros H. injection H as <-. reflexivity.
Qed.

Lemma or_none_not_empty (v : value) : or_none v <> VStr EmptyString.
Proof.
  unfold or_none. destruct (truthy v) eqn:E; [|discriminate].
  intros ->. discriminate E.
Qed.

End Mappings.

(** C7. Every thread and every posting of the ticker operations carries the
    parsed timestamp of its record moved to UTC; every posting of the forum
    operation carries the parsed timestamp of its node as the parser gave it,
    zone included.  A ticker entry of 12:00:00+01:00 is published at 11:00:00
    UTC; a forum node of the same text stays at 12:00:00+01:00. *)
Theorem published_utc_for_ticker_only :
  (forall (platform : Platform) (b : backend) (ticker_id : ident)
          (log log' : list request) (ths : list Thread),
      get_ticker_threads b ticker_id log = (Return ths, log') ->
      exists body rcs ts,
        b log (Redcontent ticker_id 1000000) = Return body /\
        body.["rcs"] = Return rcs /\ iter rcs = Return ts /\
        Forall2 (fun t th =>
                   exists ctd parsed,
                     t.["ctd"] = Return ctd /\
                     dateparser_parse ctd = Return parsed /\
                     astimezone_utc parsed = Return (Thread.published th) /\
                     tzinfo (Thread.published th) = Some 0) ts ths)
  /\ (forall (platform : Platform) (b : backend) (fuel : nat)
             (ticker_id thread_id : ident) (log trace : list request)
             (qs : list Posting),
        get_thread_postings b fuel ticker_id thread_id log
        = Some (Return qs, trace) ->
        exists raw recs,
          fetch_pages b fuel ticker_id thread_id log = Some (Return raw, trace) /\
          remove_duplicates raw = Return recs /\
          Forall2 (fun p q =>
                     exists cd parsed,
                       p.["cd"] = Return cd /\
                       dateparser_parse cd = Return parsed /\
                       astimezone_utc parsed = Return (Posting.published q) /\
                       tzinfo (Posting.published q) = Some 0) recs qs)
  /\ (forall (platform : Platform) (b : backend) (article_id : ident)
             (log log' : list request) (qs : list Posting),
        get_forum_postings b article_id log = (Return qs, log') ->
        exists forum_id log1 response raw,
          b log1 (ThreadsByForumQuery forum_id 100000 18) = Return response /\
          raw_postings_of response = Return raw /\
          Forall2 (fun p q =>
                     exists history created,
                       p.["history"] = Return history /\
                       history.["created"] = Return created /\
                       dateparser_parse created
                       = Return (Posting.published q))
            (filter lifecycle_published raw) qs)
  /\ (exists th log',
        get_ticker_threads (platform := utc_host)
          (redcontent_backend [thread_record [("id", VInt 1)]]) (IdInt 2000) []
        = (Return [th], log') /\
        (thread_record [("id", VInt 1)]).["ctd"]
        = Return (VStr "2022-01-01T12:00:00+01:00") /\
        Thread.published th = mkdatetime 2022 1 1 11 0 0 0 (Some 0))
  /\ (exists q log',
        get_forum_postings (platform := utc_host)
          (forum_backend [node_without_root]) (IdInt 1) []
        = (Return [q], log') /\
        (h <- node_without_root.["history"] ;; h.["created"])
        = Return (VStr "2022-01-01T12:00:00+01:00") /\
        Posting.published q = mkdatetime 2022 1 1 12 0 0 0 (Some 3600)).
Proof.
  split; [|split; [|split; [|split]]].
  - intros platform b ticker_id log log' ths H.
    apply get_ticker_threads_Return in H.
    destruct H as (body & rcs & ts & Hb & Hrcs & Hiter & HF).
    exists body, rcs, ts. repeat (split; [assumption|]).
    eapply Forall2_impl; [|exact HF]. cbv beta. intros t th Ht.
    apply thread_of_Return in Ht.
    destruct Ht as (id & ctd & parsed & ? & ? & ? & ? & ? & ? & ?
                    & _ & Hctd & Hparse & Hutc & _).
    exists ctd, parsed. repeat split; auto.
    eapply astimezone_utc_tzinfo. exact Hutc.
  - intros platform b fuel ticker_id thread_id log trace qs H.
    apply get_thread_postings_Return in H.
    destruct H as (raw & recs & Hfetch & Hdedup & Hmap).
    apply mapM_Forall2 in Hmap.
    exists raw, recs. repeat (split; [assumption|]).
    eapply Forall2_impl; [|exact Hmap]. cbv beta. intros p q Hp.
    apply posting_of_Return in Hp.
    destruct Hp as (? & ? & ? & ? & ? & cd & parsed & ? & ? & ? & ?
                    & _ & _ & _ & _ & _ & Hcd & Hparse & Hutc & _).
    exists cd, parsed. repeat split; auto.
    eapply astimezone_utc_tzinfo. exact Hutc.
  - intros platform b article_id log log' qs H.
    apply get_forum_postings_Return in H.
    destruct H as (forum_id & log1 & response & raw & Hb & Hraw & _ & HF).
    exists forum_id, log1, response, raw. repeat (split; [assumption|]).
    eapply Forall2_impl; [|exact HF]. cbv beta. intros p q Hp.
    apply forum_posting_of_Return in Hp.
    destruct Hp as (? & ? & ? & ? & ? & history & created & ? & ? & ? & ? & ? & ?
                    & _ & _ & _ & _ & _ & Hh & Hc & Hparse & _).
    exists history, created. auto.
  - eexists _, _. split; [vm_compute; reflexivity|]. split; reflexivity.
  - eexists _, _. split; [vm_compute; reflexivity|]. split; reflexivity.
Qed.

Lemma published_utc_for_ticker_only_witness :
  exists ts,
    Forall2 (fun t th =>
               exists ctd parsed,
                 t.["ctd"] = Return ctd /\
                 dateparser_parse (platform := utc_host) ctd = Return parsed /\
                 astimezone_utc (platform := utc_host) parsed
                 = Return (Thread.published th) /\
                 tzinfo (Thread.published th) = Some 0)
      ts
      (match fst (get_ticker_threads (platform := utc_host)
                    (redcontent_backend [thread_record [("id", VInt 1)]])
                    (IdInt 2000) [])
       with
       | Return ths => ths
       | Raise _ => []
       end).
Proof.
  destruct (proj1 published_utc_for_ticker_only utc_host
              (redcontent_backend [thread_record [("id", VInt 1)]])
              (IdInt 2000) []
              (snd (get_ticker_threads (platform := utc_host)
                      (redcontent_backend [thread_record [("id", VInt 1)]])
                      (IdInt 2000) []))
              (match fst (get_ticker_threads (platform := utc_host)
                            (redcontent_backend [thread_record [("id", VInt 1)]])
                            (IdInt 2000) [])
               with
               | Return ths => ths
               | Raise _ => []
               end))
    as (_ & _ & ts & _ & _ & _ & H).
  - vm_compute. reflexivity.
  - exists ts. exact H.
Defined.

(** C8. The votes of a forum posting are read by position: [upvotes] is the
    ["value"] of entry 0 of the node's aggregated reactions and [downvotes]
    that of entry 1, whatever the entries are called; a list of fewer than two
    entries gives an exception instead of a posting. *)
Theorem forum_votes_by_position :
  (forall (platform : Platform) (p : value) (q : Posting),
      forum_posting_of p = Return q ->
      exists reactions aggregated up down,
        p.["reactions"] = Return reactions /\
        reactions.["aggregated"] = Return aggregated /\
        getitem aggregated (VInt 0) = Return up /\
        up.["value"] = Return (Posting.upvotes q) /\
        getitem aggregated (VInt 1) = Return down /\
        down.["value"] = Return (Posting.downvotes q))
  /\ (forall (platform : Platform) (p reactions : value) (l : list value),
        p.["reactions"] = Return reactions ->
        reactions.["aggregated"] = Return (VList l) ->
        (List.length l < 2)%nat ->
        exists e, forum_posting_of p = Raise e)
  /\ (exists q,
        forum_posting_of (platform := utc_host) node_with_swapped_reactions
        = Return q /\
        Posting.upvotes q = VInt 1 /\ Posting.downvotes q = VInt 4)
  /\ forum_posting_of (platform := utc_host) node_with_one_reaction
     = Raise IndexError.
Proof.
  split; [|split; [|split]].
  - intros platform p q H. apply forum_posting_of_Return in H.
    destruct H as (? & ? & ? & ? & ? & ? & ? & reactions & aggregated & up & down
                   & ? & ? & _ & _ & _ & _ & _ & _ & _ & _ & Hr & Ha & Hu & Huv
                   & Hd & Hdv & _).
    exists reactions, aggregated, up, down. auto 10.
  - intros platform p reactions l Hr Ha Hlen. unfold forum_posting_of.
    repeat first
      [ rewrite Hr; cbn [bind]
      | rewrite Ha; cbn [bind]
      | match goal with
        | |- exists e, bind (getitem (VList _) _) _ = Raise e => fail 1
        | |- exists e, bind ?c _ = Raise e =>
            destruct c; cbn [bind]; [|eexists; reflexivity]
        end ].
    destruct l as [|x [|y l]]; [| |simpl in Hlen; lia].
    + eexists. reflexivity.
    + change (getitem (VList [x]) (VInt 0)) with (Return x). cbn [bind].
      destruct (x.["value"]); cbn [bind]; eexists; reflexivity.
  - eexists. split; [vm_compute; reflexivity|]. split; reflexivity.
  - vm_compute. reflexivity.
Qed.

Lemma forum_votes_by_position_witness :
  exists e,
    forum_posting_of (platform := utc_host) node_with_one_reaction = Raise e.
Proof.
  apply (proj1 (proj2 forum_votes_by_position) utc_host node_with_one_reaction
           (VDict [("aggregated", VList [reaction "positive" 4])])
           [reaction "positive" 4]).
  - reflexivity.
  - reflexivity.
  - simpl. lia.
Defined.

(** C10. No mapping hands on an empty title or message: the field is the
    source value when that is true and null otherwise, so an empty string in
    [hl], [cm], [tx], [title] or [text] becomes null, and no thread or posting
    returned by the three operations has the empty string there. *)
Theorem empty_text_becomes_null :
  (forall (platform : Platform) (ticker_id : ident) (t : value) (th : Thread),
      thread_of ticker_id t = Return th ->
      (get t "hl" = Return (VStr EmptyString) -> Thread.title th = VNone) /\
      (get t "cm" = Return (VStr EmptyString) -> Thread.message th = VNone))
  /\ (forall (platform : Platform) (thread_id : ident) (p : value) (q : Posting),
        posting_of thread_id p = Return q ->
        (get p "hl" = Return (VStr EmptyString) -> Posting.title q = VNone) /\
        (get p "tx" = Return (VStr EmptyString) -> Posting.message q = VNone))
  /\ (forall (platform : Platform) (p : value) (q : Posting),
        forum_posting_of p = Return q ->
        (p.["title"] = Return (VStr EmptyString) -> Posting.title q = VNone) /\
        (p.["text"] = Return (VStr EmptyString) -> Posting.message q = VNone))
  /\ (forall (platform : Platform) (b : backend) (ticker_id : ident)
             (log log' : list request) (ths : list Thread),
        get_ticker_threads b ticker_id log = (Return ths, log') ->
        Forall (fun th => Thread.title th <> VStr EmptyString /\
                          Thread.message th <> VStr EmptyString) ths)
  /\ (forall (platform : Platform) (b : backend) (fuel : nat)
             (ticker_id thread_id : ident) (log trace : list request)
             (qs : list Posting),
        get_thread_postings b fuel ticker_id thread_id log
        = Some (Return qs, trace) ->
        Forall (fun q => Posting.title q <> VStr EmptyString /\
                         Posting.message q <> VStr EmptyString) qs)
  /\ (forall (platform : Platform) (b : backend) (article_id : ident)
             (log log' : list request) (qs : list Posting),
        get_forum_postings b article_id log = (Return qs, log') ->
        Forall (fun q => Posting.title q <> VStr EmptyString /\
                         Posting.message q <> VStr EmptyString) qs).
Proof.
  assert (Hthread : forall (platform : Platform) ticker_id t th,
             thread_of ticker_id t = Return th ->
             exists hl cm, get t "hl" = Return hl /\ get t "cm" = Return cm /\
                           Thread.title th = or_none hl /\
                           Thread.message th = or_none cm).
  { intros platform ticker_id t th H. apply thread_of_Return in H.
    destruct H as (? & ? & ? & ? & hl & cm & ? & ? & ? & ?
                   & _ & _ & _ & _ & _ & Hhl & Hcm & _ & _ & _ & _ & ->).
    exists hl, cm. auto. }
  assert (Hposting : forall (platform : Platform) thread_id p q,
             posting_of thread_id p = Return q ->
             exists hl tx, get p "hl" = Return hl /\ get p "tx" = Return tx /\
                           Posting.title q = or_none hl /\
                           Posting.message q = or_none tx).
  { intros platform thread_id p q H. apply posting_of_Return in H.
    destruct H as (? & ? & ? & ? & ? & ? & ? & hl & tx & ? & ?
                   & _ & _ & _ & _ & _ & _ & _ & _ & Hhl & Htx & _ & _ & ->).
    exists hl, tx. auto. }
  assert (Hforum : forall (platform : Platform) p q,
             forum_posting_of p = Return q ->
             exists title text,
               p.["title"] = Return title /\ p.["text"] = Return text /\
               Posting.title q = or_none title /\
               Posting.message q = or_none text).
  { intros platform p q H. apply forum_posting_of_Return in H.
    destruct H as (? & ? & ? & ? & ? & ? & ? & ? & ? & ? & ? & title & text
                   & _ & _ & _ & _ & _ & _ & _ & _ & _ & _ & _ & _ & _ & _
                   & Ht & Hx & ->).
    exists title, text. auto. }
  split; [|split; [|split; [|split; [|split]]]].
  - intros platform ticker_id t th H.
    destruct (Hthread _ _ _ _ H) as (hl & cm & Hhl & Hcm & -> & ->).
    split; intros E; [rewrite Hhl in E | rewrite Hcm in E];
      injection E as ->; reflexivity.
  - intros platform thread_id p q H.
    destruct (Hposting _ _ _ _ H) as (hl & tx & Hhl & Htx & -> & ->).
    split; intros E; [rewrite Hhl in E | rewrite Htx in E];
      injection E as ->; reflexivity.
  - intros platform p q H.
    destruct (Hforum _ _ _ H) as (title & text & Ht & Hx & -> & ->).
    split; intros E; [rewrite Ht in E | rewrite Hx in E];
      injection E as ->; reflexivity.
  - intros platform b ticker_id log log' ths H.
    apply get_ticker_threads_Return in H.
    destruct H as (body & rcs & ts & _ & _ & _ & HF).
    rewrite Forall_forall. intros th Hth.
    destruct (Forall2_In_r _ _ _ _ HF Hth) as (t & _ & Ht).
    destruct (Hthread _ _ _ _ Ht) as (hl & cm & _ & _ & -> & ->).
    split; apply or_none_not_empty.
  - intros platform b fuel ticker_id thread_id log trace qs H.
    apply get_thread_postings_Return in H.
    destruct H as (raw & recs & _ & _ & Hmap). apply mapM_Forall2 in Hmap.
    rewrite Forall_forall. intros q Hq.
    destruct (Forall2_In_r _ _ _ _ Hmap Hq) as (p & _ & Hp).
    destruct (Hposting _ _ _ _ Hp) as (hl & tx & _ & _ & -> & ->).
    split; apply or_none_not_empty.
  - intros platform b article_id log log' qs H.
    apply get_forum_postings_Return in H.
    destruct H as (forum_id & log1 & response & raw & _ & _ & _ & HF).
    rewrite Forall_forall. intros q Hq.
    destruct (Forall2_In_r _ _ _ _ HF Hq) as (p & _ & Hp).
    destruct (Hforum _ _ _ Hp) as (title & text & _ & _ & -> & ->).
    split; apply or_none_not_empty.
Qed.

Lemma empty_text_becomes_null_witness :
  exists th,
    thread_of (platform := utc_host) (IdInt 2000)
      (thread_record [("id", VInt 1)]) = Return th /\
    Thread.title th = VNone.
Proof.
  eexists. split; [vm_compute; reflexivity|].
  match goal with
  | |- Thread.title ?th = _ =>
      assert (E : thread_of (platform := utc_host) (IdInt 2000)
                    (thread_record [("id", VInt 1)]) = Return th)
        by (vm_compute; reflexivity)
  end.
  apply (proj1 (proj1 empty_text_becomes_null utc_host (IdInt 2000)
                  (thread_record [("id", VInt 1)]) _ E)).
  reflexivity.
Defined.

(** ** Missing fields *)

Section MissingFields.
Context {platform : Platform}.

Lemma thread_of_missing (ticker_id : ident) (fields : list (string * value))
  (k : string) :
  In k required_thread_fields -> lookup k fields = None ->
  exists e, thread_of ticker_id (VDict fields) = Raise e.
Proof.
  intros Hin Hmiss.
  destruct (thread_of ticker_id (VDict fields)) as [th|e] eqn:E; [|eauto].
  exfalso. apply thread_of_Return in E.
  destruct E as (? & ? & ? & ? & ? & ? & ? & ? & ? & ?
                 & H1 & H2 & _ & _ & _ & _ & _ & H3 & H4 & H5 & H6 & _).
  unfold subscript, getitem in *.
  destruct Hin as [<-|[<-|[<-|[<-|[<-|[<-|[]]]]]]];
    rewrite Hmiss in *; discriminate.
Qed.

Lemma posting_of_missing (thread_id : ident) (fields : list (string * value))
  (k : string) :
  In k required_posting_fields -> lookup k fields = None ->
  exists e, posting_of thread_id (VDict fields) = Raise e.
Proof.
  intros Hin Hmiss.
  destruct (posting_of thread_id (VDict fields)) as [q|e] eqn:E; [|eauto].
  exfalso. apply posting_of_Return in E.
  destruct E as (? & ? & ? & ? & ? & ? & ? & ? & ? & ? & ?
                 & H1 & H2 & H3 & H4 & _ & H5 & _ & _ & _ & _ & H6 & H7 & _).
  unfold subscript, getitem in *.
  destruct Hin as [<-|[<-|[<-|[<-|[<-|[<-|[<-|[]]]]]]]];
    rewrite Hmiss in *; discriminate.
Qed.

Lemma forum_posting_of_missing (fields : list (string * value)) (k : string) :
  In k required_node_fields -> lookup k fields = None ->
  exists e, forum_posting_of (VDict fields) = Raise e.
Proof.
  intros Hin Hmiss.
  destruct (forum_posting_of (VDict fields)) as [q|e] eqn:E; [|eauto].
  exfalso. apply forum_posting_of_Return in E.
  destruct E as (? & ? & ? & ? & ? & ? & ? & ? & ? & ? & ? & ? & ?
                 & H1 & H2 & H3 & _ & _ & H4 & _ & _ & H5 & _ & _ & _ & _ & _
                 & H6 & H7 & _).
  unfold subscript, getitem in *.
  destruct Hin as [<-|[<-|[<-|[<-|[<-|[<-|[<-|[]]]]]]]];
    rewrite Hmiss in *; discriminate.
Qed.

(** The exception is the [KeyError] of the first field that is missing,
    provided the timestamp and the ticker id, which are evaluated after
    ["ctd"], are good. *)
Lemma thread_of_first_missing (ticker_id : ident)
  (fields : list (string * value)) (k : string) :
  In k required_thread_fields -> lookup k fields = None ->
  (forall k', In k' (earlier k required_thread_fields) ->
              lookup k' fields <> None) ->
  (k = "id" \/ k = "ctd" \/
   exists ctd parsed published ticker,
     lookup "ctd" fields = Some ctd /\
     dateparser_parse ctd = Return parsed /\
     astimezone_utc parsed = Return published /\
     py_int ticker_id = Return ticker) ->
  thread_of ticker_id (VDict fields) = Raise (KeyError (VStr k)).
Proof.
  intros Hin Hmiss Hpre Hconv.
  assert (Hhave : forall k', In k' (earlier k required_thread_fields) ->
                             exists v, lookup k' fields = Some v).
  { intros k' Hk'. destruct (lookup k' fields) eqn:E; [eauto|].
    exfalso. apply (Hpre k' Hk'). exact E. }
  clear Hpre. unfold thread_of, subscript, getitem, get.
  destruct Hin as [<-|[<-|[<-|[<-|[<-|[<-|[]]]]]]]; cbn in Hhave;
    rewrite ?Hmiss; try reflexivity;
    destruct (Hhave "id") as (vid & ->); try tauto; cbn [bind];
    rewrite ?Hmiss; try reflexivity;
    (destruct Hconv as [Hc|[Hc|(ctd & parsed & published & ticker
                                & Hctd & Hparse & Hutc & Hint)]];
     [discriminate Hc | discriminate Hc |]);
    rewrite Hctd; cbn [bind]; rewrite Hparse; cbn [bind];
    rewrite Hutc; cbn [bind]; rewrite Hint; cbn [bind];
    destruct (lookup "hl" fields), (lookup "cm" fields); cbn [bind];
    rewrite ?Hmiss; try reflexivity;
    destruct (Hhave "cid") as (vcid & ->); try tauto; cbn [bind];
    rewrite ?Hmiss; try reflexivity;
    destruct (Hhave "cn") as (vcn & ->); try tauto; cbn [bind];
    rewrite ?Hmiss; try reflexivity;
    destruct (Hhave "vp") as (vvp & ->); try tauto; cbn [bind];
    rewrite ?Hmiss; reflexivity.
Qed.

Lemma get_ticker_threads_no_rcs (b : backend) (ticker_id : ident)
  (log : list request) (d : list (string * value)) :
  b log (Redcontent ticker_id 1000000) = Return (VDict d) ->
  lookup "rcs" d = None ->
  get_ticker_threads b ticker_id log
  = (Raise (KeyError (VStr "rcs")), log ++ [Redcontent ticker_id 1000000]).
Proof.
  intros Hb Hmiss. unfold get_ticker_threads, cbind, http_get, lift.
  rewrite Hb. unfold subscript, getitem. rewrite Hmiss. reflexivity.
Qed.

Lemma get_ticker_threads_first_Raise (b : backend) (ticker_id : ident)
  (log : list request) (body rcs t : value) (pre post : list value)
  (ths : list Thread) (e : exn) :
  b log (Redcontent ticker_id 1000000) = Return body ->
  body.["rcs"] = Return rcs -> iter rcs = Return (pre ++ t :: post) ->
  mapM (thread_of ticker_id) pre = Return ths ->
  thread_of ticker_id t = Raise e ->
  get_ticker_threads b ticker_id log
  = (Raise e, log ++ [Redcontent ticker_id 1000000]).
Proof.
  intros Hb Hrcs Hiter Hpre Ht. unfold get_ticker_threads, cbind, http_get, lift.
  rewrite Hb, Hrcs. cbn [bind]. rewrite Hiter. cbn [bind].
  rewrite (mapM_Raise _ _ _ _ _ _ Hpre Ht). reflexivity.
Qed.

Lemma get_ticker_threads_Raise (b : backend) (ticker_id : ident)
  (log : list request) (body rcs t : value) (ts : list value) :
  b log (Redcontent ticker_id 1000000) = Return body ->
  body.["rcs"] = Return rcs -> iter rcs = Return ts -> In t ts ->
  (exists e, thread_of ticker_id t = Raise e) ->
  exists e,
    get_ticker_threads b ticker_id log
    = (Raise e, log ++ [Redcontent ticker_id 1000000]).
Proof.
  intros Hb Hrcs Hiter Hin Ht. unfold get_ticker_threads, cbind, http_get, lift.
  rewrite Hb, Hrcs. cbn [bind]. rewrite Hiter. cbn [bind].
  destruct (mapM_In_Raise _ _ _ Hin Ht) as (e & ->). eauto.
Qed.

End MissingFields.

Lemma no_MalformedResponseError (e : exn) :
  exn_name e <> "MalformedResponseError".
Proof. destruct e; discriminate. Qed.

(** C9 does not hold as the specification states it: a ticker record without
    ["id"] makes the operation fail, but not with an exception called
    [MalformedResponseError]. *)
Lemma missing_id_is_not_MalformedResponseError :
  ~ (exists e log',
       get_ticker_threads (platform := utc_host)
         (redcontent_backend [thread_record []]) (IdInt 2000) []
       = (Raise e, log') /\
       exn_name e = "MalformedResponseError").
Proof.
  intros (e & log' & H & Hname). vm_compute in H.
  injection H as <- _. discriminate Hname.
Qed.

(** C9, amended.  A missing field surfaces as Python's own exception and
    never as a partial result.  A [redcontent] body without ["rcs"] gives
    [KeyError("rcs")]; a record of ["rcs"] lacking one of [id], [ctd], [cid],
    [cn], [vp], [vn] makes [get_ticker_threads] raise, and what it raises is
    the [KeyError] of the first missing field when the records before it and
    the timestamp and ticker id of this one are good.  A ticker posting or a
    forum node lacking a field its mapping reads makes that mapping raise.
    No failure of the three operations is called [MalformedResponseError]. *)
Theorem missing_field_raises_KeyError :
  forall (platform : Platform) (b : backend) (ticker_id : ident)
         (log : list request),
    (forall d,
        b log (Redcontent ticker_id 1000000) = Return (VDict d) ->
        lookup "rcs" d = None ->
        get_ticker_threads b ticker_id log
        = (Raise (KeyError (VStr "rcs")),
           log ++ [Redcontent ticker_id 1000000]))
    /\ (forall body rcs ts fields k,
          b log (Redcontent ticker_id 1000000) = Return body ->
          body.["rcs"] = Return rcs -> iter rcs = Return ts ->
          In (VDict fields) ts ->
          In k required_thread_fields -> lookup k fields = None ->
          exists e,
            get_ticker_threads b ticker_id log
            = (Raise e, log ++ [Redcontent ticker_id 1000000]))
    /\ (forall body rcs pre post ths fields k,
          b log (Redcontent ticker_id 1000000) = Return body ->
          body.["rcs"] = Return rcs ->
          iter rcs = Return (pre ++ VDict fields :: post) ->
          mapM (thread_of ticker_id) pre = Return ths ->
          In k required_thread_fields -> lookup k fields = None ->
          (forall k', In k' (earlier k required_thread_fields) ->
                      lookup k' fields <> None) ->
          (k = "id" \/ k = "ctd" \/
           exists ctd parsed published ticker,
             lookup "ctd" fields = Some ctd /\
             dateparser_parse ctd = Return parsed /\
             astimezone_utc parsed = Return published /\
             py_int ticker_id = Return ticker) ->
          get_ticker_threads b ticker_id log
          = (Raise (KeyError (VStr k)),
             log ++ [Redcontent ticker_id 1000000]))
    /\ (forall thread_id fields k,
          In k required_posting_fields -> lookup k fields = None ->
          exists e, posting_of thread_id (VDict fields) = Raise e)
    /\ (forall fields k,
          In k required_node_fields -> lookup k fields = None ->
          exists e, forum_posting_of (VDict fields) = Raise e)
    /\ (forall e log',
          get_ticker_threads b ticker_id log = (Raise e, log') ->
          exn_name e <> "MalformedResponseError")
    /\ (forall fuel thread_id e trace,
          get_thread_postings b fuel ticker_id thread_id log
          = Some (Raise e, trace) ->
          exn_name e <> "MalformedResponseError")
    /\ (forall article_id e log',
          get_forum_postings b article_id log = (Raise e, log') ->
          exn_name e <> "MalformedResponseError").
Proof.
  intros platform b ticker_id log.
  split; [|split; [|split; [|split; [|split; [|split; [|split]]]]]].
  - intros d. apply get_ticker_threads_no_rcs.
  - intros body rcs ts fields k Hb Hrcs Hiter Hin Hk Hmiss.
    eapply get_ticker_threads_Raise; eauto.
    eapply thread_of_missing; eauto.
  - intros body rcs pre post ths fields k Hb Hrcs Hiter Hpre Hk Hmiss Hearlier Hconv.
    eapply get_ticker_threads_first_Raise; eauto.
    apply thread_of_first_missing; assumption.
  - intros thread_id fields k. apply posting_of_missing.
  - intros fields k. apply forum_posting_of_missing.
  - intros e log' _. apply no_MalformedResponseError.
  - intros fuel thread_id e trace _. apply no_MalformedResponseError.
  - intros article_id e log' _. apply no_MalformedResponseError.
Qed.

Lemma missing_field_raises_KeyError_witness :
  get_ticker_threads (platform := utc_host)
    (redcontent_backend [thread_record []]) (IdInt 2000) []
  = (Raise (KeyError (VStr "id")), [] ++ [Redcontent (IdInt 2000) 1000000]).
Proof.
  apply (proj1 (proj2 (proj2 (missing_field_raises_KeyError utc_host
                                (redcontent_backend [thread_record []])
                                (IdInt 2000) [])))
           (VDict [("rcs", VList [thread_record []])])
           (VList [thread_record []]) [] [] []
           [("ctd", VStr "2022-01-01T12:00:00+01:00"); ("hl", VStr EmptyString);
            ("cm", VStr "on air"); ("cid", VInt 3); ("cn", VStr "carl");
            ("vp", VInt 1); ("vn", VInt 0)]
           "id").
  - reflexivity.
  - reflexivity.
  - reflexivity.
  - reflexivity.
  - simpl. left. reflexivity.
  - reflexivity.
  - simpl. intros k' [].
  - left. reflexivity.
Defined.

(** * Further properties *)

(** ** Removing duplicates, continued *)

Lemma dict_set_keys (k v : value) (d : list (value * value)) :
  map fst (dict_set k v d)
  = if existsb (fun s => key_eq s k) (map fst d) then map fst d
    else map fst d ++ [k].
Proof.
  induction d as [|[k' v'] d IH]; [reflexivity|].
  cbn [dict_set map fst existsb]. destruct (key_eq k' k); [reflexivity|].
  cbn [map fst orb]. rewrite IH.
  destruct (existsb (fun s => key_eq s k) (map fst d)); reflexivity.
Qed.

Lemma dict_by_pid_keys (postings pids : list value) :
  Forall2 (fun p pid => p.["pid"] = Return pid /\ hashable pid = true)
    postings pids ->
  forall d, exists res,
    dict_by_pid postings d = Return res /\
    map fst res = map fst d ++ first_seen (map fst d) pids.
Proof.
  induction 1 as [|p pid postings pids [Hp Hh] _ IH]; intros d.
  - exists d. split; [reflexivity|]. cbn [first_seen]. rewrite app_nil_r.
    reflexivity.
  - cbn [dict_by_pid]. rewrite Hp. cbn [bind]. rewrite Hh.
    destruct (IH (dict_set pid p d)) as (res & Hres & Hkeys).
    exists res. split; [exact Hres|].
    rewrite Hkeys, dict_set_keys. cbn [first_seen].
    destruct (existsb (fun s => key_eq s pid) (map fst d)); [reflexivity|].
    rewrite <- app_assoc. reflexivity.
Qed.

Lemma first_seen_length (ids seen : list value) :
  (List.length (first_seen seen ids) <= List.length ids)%nat.
Proof.
  revert seen; induction ids as [|k ids IH]; intros seen; [apply Nat.le_refl|].
  cbn [first_seen List.length].
  destruct (existsb (fun s => key_eq s k) seen).
  - specialize (IH seen). lia.
  - cbn [List.length]. specialize (IH (seen ++ [k])). lia.
Qed.

Lemma dict_set_fresh (k v : value) (d : list (value * value)) :
  Forall (fun k' => key_eq k' k = false) (map fst d) ->
  dict_set k v d = d ++ [(k, v)].
Proof.
  induction d as [|[k' v'] d IH]; [reflexivity|].
  cbn [map fst dict_set]. intros H. inversion H as [|? ? Hk Hrest]; subst.
  rewrite Hk, (IH Hrest). reflexivity.
Qed.

Lemma ForallOrdPairs_app_inv {A : Type} (R : A -> A -> Prop) (l1 l2 : list A) :
  ForallOrdPairs R (l1 ++ l2) ->
  ForallOrdPairs R l2 /\ forall a b, In a l1 -> In b l2 -> R a b.
Proof.
  induction l1 as [|x l1 IH]; cbn [app]; intros H.
  - split; [exact H | intros a b []].
  - inversion H as [|? ? Hx Hrest]; subst. destruct (IH Hrest) as (H2 & H12).
    split; [exact H2|]. intros a b [<-|Ha] Hb.
    + rewrite Forall_forall in Hx. apply Hx. apply in_or_app. right. exact Hb.
    + apply H12; assumption.
Qed.

Lemma dict_by_pid_distinct (postings pids : list value) :
  Forall2 (fun p pid => p.["pid"] = Return pid /\ hashable pid = true)
    postings pids ->
  forall d,
    ForallOrdPairs (fun a b => key_eq a b = false) (map fst d ++ pids) ->
    dict_by_pid postings d = Return (d ++ combine pids postings).
Proof.
  induction 1 as [|p pid postings pids [Hp Hh] _ IH]; intros d Hd.
  - cbn [dict_by_pid combine]. rewrite app_nil_r. reflexivity.
  - cbn [dict_by_pid combine]. rewrite Hp. cbn [bind]. rewrite Hh.
    destruct (ForallOrdPairs_app_inv _ _ _ Hd) as (_ & Hfresh).
    rewrite dict_set_fresh.
    + rewrite IH.
      * rewrite <- app_assoc. reflexivity.
      * rewrite map_app. cbn [map fst]. rewrite <- app_assoc. exact Hd.
    + rewrite Forall_forall. intros k' Hk'. apply Hfresh; [exact Hk'|].
      left. reflexivity.
Qed.

Lemma remove_duplicates_distinct (raw pids : list value) :
  Forall2 (fun p pid => p.["pid"] = Return pid /\ hashable pid = true)
    raw pids ->
  ForallOrdPairs (fun a b => key_eq a b = false) pids ->
  remove_duplicates raw = Return raw.
Proof.
  intros HF Hd. unfold remove_duplicates.
  rewrite (dict_by_pid_distinct raw pids HF [] Hd). cbn [bind app].
  f_equal. clear Hd. induction HF as [|p pid raw pids _ _ IH]; [reflexivity|].
  cbn [combine map snd]. rewrite IH. reflexivity.
Qed.

Lemma dict_by_pid_app (pre rest : list value) (d : list (value * value)) :
  dict_by_pid (pre ++ rest) d
  = (d' <- dict_by_pid pre d ;; dict_by_pid rest d').
Proof.
  revert d; induction pre as [|p pre IH]; intros d; [reflexivity|].
  cbn [app dict_by_pid]. destruct (p.["pid"]) as [pid|e]; [|reflexivity].
  cbn [bind]. destruct (hashable pid); [apply IH | reflexivity].
Qed.

(** X1. When the ids of the records are pairwise different (and usable as
    dict keys), removing duplicates changes nothing: the records come back as
    they were, in the same order. *)
Theorem remove_duplicates_identity :
  forall raw pids : list value,
    Forall2 (fun p pid => p.["pid"] = Return pid /\ hashable pid = true)
      raw pids ->
    ForallOrdPairs (fun a b => key_eq a b = false) pids ->
    remove_duplicates raw = Return raw.
Proof.
  exact remove_duplicates_distinct.
Qed.

Lemma remove_duplicates_identity_witness :
  remove_duplicates [ticker_record 1 "first"; ticker_record 2 "second"]
  = Return [ticker_record 1 "first"; ticker_record 2 "second"].
Proof.
  apply (remove_duplicates_identity
           [ticker_record 1 "first"; ticker_record 2 "second"]
           [VInt 1; VInt 2]).
  - repeat constructor.
  - repeat constructor.
Defined.

(** X2. Removing duplicates twice is the same as removing them once. *)
Theorem remove_duplicates_idempotent :
  forall raw recs : list value,
    remove_duplicates raw = Return recs ->
    remove_duplicates recs = Return recs.
Proof.
  intros raw recs H.
  destruct (remove_duplicates_spec raw recs H) as ((pids & HF & Hnodup) & _).
  apply (remove_duplicates_distinct recs pids HF).
  apply distinct_codes_apart; [|exact Hnodup].
  clear -HF. induction HF as [|? ? ? ? [_ Hh]]; constructor; auto.
Qed.

Lemma remove_duplicates_idempotent_witness :
  remove_duplicates
    [ticker_record 1 "first"; ticker_record 2 "second, edited";
     ticker_record 3 "third"]
  = Return [ticker_record 1 "first"; ticker_record 2 "second, edited";
            ticker_record 3 "third"].
Proof.
  apply (remove_duplicates_idempotent (List.concat overlapping_pages)).
  vm_compute. reflexivity.
Defined.

(** X3. When every record has an id usable as a dict key, removing duplicates
    succeeds, never yields more records than it was given, and yields them in
    the order in which their ids first appeared (the content being that of
    the last record of the id, see C1). *)
Theorem remove_duplicates_first_seen_order :
  forall raw pids : list value,
    Forall2 (fun p pid => p.["pid"] = Return pid /\ hashable pid = true)
      raw pids ->
    exists recs rpids,
      remove_duplicates raw = Return recs /\
      Forall2 (fun r k => r.["pid"] = Return k) recs rpids /\
      map key_code rpids = map key_code (first_seen [] pids) /\
      (List.length recs <= List.length raw)%nat.
Proof.
  intros raw pids HF.
  destruct (dict_by_pid_keys raw pids HF []) as (res & Hres & Hkeys).
  cbn [map app] in Hkeys.
  pose proof (dict_by_pid_inv raw [] [] res dict_inv_nil Hres) as (I1 & _).
  destruct (dict_values_pids res I1) as (rpids & Hr & Hcodes).
  exists (map snd res), rpids. split; [|split; [|split]].
  - unfold remove_duplicates. rewrite Hres. reflexivity.
  - eapply Forall2_impl; [|exact Hr]. cbv beta. intros r k [Hk _]. exact Hk.
  - rewrite Hcodes, <- Hkeys, map_map. reflexivity.
  - rewrite length_map, <- (length_map fst), Hkeys.
    rewrite (Forall2_length HF). apply first_seen_length.
Qed.

Lemma remove_duplicates_first_seen_order_witness :
  exists recs rpids,
    remove_duplicates (List.concat overlapping_pages) = Return recs /\
    Forall2 (fun r k => r.["pid"] = Return k) recs rpids /\
    map key_code rpids
    = map key_code (first_seen [] [VInt 1; VInt 2; VInt 2; VInt 3]) /\
    (List.length recs <= 4)%nat.
Proof.
  apply (remove_duplicates_first_seen_order (List.concat overlapping_pages)
           [VInt 1; VInt 2; VInt 2; VInt 3]).
  repeat constructor.
Defined.

(** X4. Removing duplicates stops at the first record it cannot key: a record
    without ["pid"] raises the exception of the lookup, a record whose id is a
    list or a dict raises [TypeError]; nothing is returned. *)
Theorem remove_duplicates_bad_record :
  forall (pre post : list value) (p : value),
    Forall (fun q => exists k, q.["pid"] = Return k /\ hashable k = true) pre ->
    (forall e, p.["pid"] = Raise e ->
       remove_duplicates (pre ++ p :: post) = Raise e)
    /\ (forall k, p.["pid"] = Return k -> hashable k = false ->
          remove_duplicates (pre ++ p :: post) = Raise TypeError).
Proof.
  intros pre post p Hpre.
  assert (Hok : exists pids,
             Forall2 (fun p pid => p.["pid"] = Return pid /\ hashable pid = true)
               pre pids).
  { induction Hpre as [|q pre (k & Hk & Hh) _ (pids & IH)].
    - exists []. constructor.
    - exists (k :: pids). constructor; auto. }
  destruct Hok as (pids & HF).
  destruct (dict_by_pid_keys pre pids HF []) as (d & Hd & _).
  split.
  - intros e He. unfold remove_duplicates.
    rewrite dict_by_pid_app, Hd. cbn [bind dict_by_pid]. rewrite He.
    reflexivity.
  - intros k Hk Hh. unfold remove_duplicates.
    rewrite dict_by_pid_app, Hd. cbn [bind dict_by_pid]. rewrite Hk.
    cbn [bind]. rewrite Hh. reflexivity.
Qed.

Lemma remove_duplicates_bad_record_witness :
  remove_duplicates
    ([ticker_record 1 "first"] ++ VDict [("tx", VStr "no id")] :: [])
  = Raise (KeyError (VStr "pid")).
Proof.
  apply (proj1 (remove_duplicates_bad_record [ticker_record 1 "first"] []
                  (VDict [("tx", VStr "no id")])
                  ltac:(repeat constructor; exists (VInt 1); split; reflexivity))).
  reflexivity.
Defined.

(** ** The paging loop, continued *)

Section PagingFurther.
Context {platform : Platform}.

(** One round on a non-empty page whose last record has an id: the page is
    taken and the next one is asked for with the cursor of this one. *)
Lemma next_page_round (b : backend) (ticker_id thread_id : ident)
  (acc pg : list value) (log : list request) :
  pg <> [] -> has_pid (last pg VNone) = true ->
  next_page b ticker_id thread_id (acc, page_of pg) log
  = match b log (Postings ticker_id thread_id (cursor_of pg)) with
    | Return page' =>
        (Return (inl (acc ++ pg, page')),
         log ++ [Postings ticker_id thread_id (cursor_of pg)])
    | Raise e =>
        (Raise e, log ++ [Postings ticker_id thread_id (cursor_of pg)])
    end.
Proof.
  intros Hne Hpid. unfold has_pid in Hpid.
  destruct ((last pg VNone).["pid"]) as [pid|] eqn:Epid; [|discriminate].
  assert (Ecur : (last <- getitem (VList pg) (VInt (-1)) ;; last.["pid"])
                 = Return pid).
  { simpl. rewrite (index_last pg VNone Hne). simpl. exact Epid. }
  unfold next_page, lift, cbind, ret.
  change ((page_of pg).["p"]) with (Return (VList pg)).
  assert (Ht : truthy (VList pg) = true) by (destruct pg; [congruence|reflexivity]).
  cbv beta iota. rewrite Ht. cbn [iter]. rewrite Ecur.
  unfold _get_thread_postings_page, http_get, cursor_of. rewrite Ecur.
  destruct (b log _); reflexivity.
Qed.

(** The loop against a scripted backend whose pages are followed by a failing
    request. *)
Lemma while_scripted_failing (ticker_id thread_id : ident) (e : exn)
  (pages : list (list value)) :
  Forall (fun pg => pg <> [] /\ has_pid (last pg VNone) = true) pages ->
  forall (pg : list value) (pre : list (result value)) (acc : list value)
         (log : list request) (fuel : nat),
    pg <> [] -> has_pid (last pg VNone) = true ->
    List.length log = S (List.length pre) ->
    (List.length pages < fuel)%nat ->
    while fuel
      (next_page
         (scripted (pre ++ Return (page_of pg)
                        :: map (fun pg => Return (page_of pg)) pages
                        ++ [Raise e]))
         ticker_id thread_id)
      (acc, page_of pg) log
    = Some (Raise e,
            log ++ map (fun pg => Postings ticker_id thread_id (cursor_of pg))
                     (pg :: pages)).
Proof.
  induction 1 as [|pg' pages [Hne' Hpid'] _ IH];
    intros pg pre acc log fuel Hne Hpid Hlog Hfuel;
    (destruct fuel as [|fuel]; [simpl in Hfuel; lia|]);
    cbn [while]; rewrite (next_page_round _ _ _ _ _ _ Hne Hpid).
  - assert (E : scripted (pre ++ Return (page_of pg) :: map (fun pg => Return (page_of pg)) [] ++ [Raise e])
                  log (Postings ticker_id thread_id (cursor_of pg)) = Raise e).
    { unfold scripted. rewrite Hlog, nth_error_app2 by lia.
      replace (S (List.length pre) - List.length pre)%nat with 1%nat by lia.
      reflexivity. }
    rewrite E. reflexivity.
  - assert (E : scripted (pre ++ Return (page_of pg)
                              :: map (fun pg => Return (page_of pg)) (pg' :: pages)
                              ++ [Raise e])
                  log (Postings ticker_id thread_id (cursor_of pg))
                = Return (page_of pg')).
    { unfold scripted. rewrite Hlog, nth_error_app2 by lia.
      replace (S (List.length pre) - List.length pre)%nat with 1%nat by lia.
      reflexivity. }
    rewrite E.
    replace (pre ++ Return (page_of pg)
                 :: map (fun pg => Return (page_of pg)) (pg' :: pages)
                 ++ [Raise e])
      with ((pre ++ [Return (page_of pg)])
              ++ Return (page_of pg')
                 :: map (fun pg => Return (page_of pg)) pages ++ [Raise e])
      by (rewrite <- app_assoc; reflexivity).
    rewrite IH; try assumption.
    + cbn [map]. rewrite <- app_assoc. reflexivity.
    + rewrite !length_app. simpl. lia.
    + simpl in Hfuel. lia.
Qed.

End PagingFurther.

(** X5. A failure in the middle of the paging discards what was fetched:
    against a backend that serves N well-formed pages and then fails the next
    request, the operation raises that failure after exactly N + 1 requests
    and returns no posting. *)
Theorem get_thread_postings_failure_discards_pages :
  forall (platform : Platform) (pages : list (list value)) (e : exn)
         (ticker_id thread_id : ident) (fuel : nat),
    Forall (fun pg => pg <> [] /\ has_pid (last pg VNone) = true) pages ->
    (List.length pages <= fuel)%nat ->
    get_thread_postings
      (scripted (map (fun pg => Return (page_of pg)) pages ++ [Raise e]))
      fuel ticker_id thread_id []
    = Some (Raise e,
            Postings ticker_id thread_id None
              :: map (fun pg => Postings ticker_id thread_id (cursor_of pg))
                   pages).
Proof.
  intros platform pages e ticker_id thread_id fuel Hpages Hfuel.
  unfold get_thread_postings, fetch_pages, _get_thread_postings_page, http_get.
  cbn [truthy app].
  destruct Hpages as [|pg pages [Hne Hpid] Hrest]; [reflexivity|].
  change (scripted (map (fun pg => Return (page_of pg)) (pg :: pages) ++ [Raise e])
            [] (Postings ticker_id thread_id None))
    with (@Return value (page_of pg)).
  cbv beta iota.
  pose proof (while_scripted_failing ticker_id thread_id e pages Hrest pg []
                [] [Postings ticker_id thread_id None] fuel Hne Hpid eq_refl)
    as Hw.
  cbn [app] in Hw. cbn [map app]. rewrite Hw; [reflexivity|].
  simpl in Hfuel. lia.
Qed.

Lemma get_thread_postings_failure_discards_pages_witness :
  get_thread_postings (platform := utc_host)
    (scripted (map (fun pg => Return (page_of pg)) overlapping_pages
               ++ [Raise ClientError]))
    2%nat (IdInt 2000) (IdInt 7) []
  = Some (Raise ClientError,
          Postings (IdInt 2000) (IdInt 7) None
            :: map (fun pg => Postings (IdInt 2000) (IdInt 7) (cursor_of pg))
                 overlapping_pages).
Proof.
  apply (get_thread_postings_failure_discards_pages utc_host overlapping_pages
           ClientError (IdInt 2000) (IdInt 7) 2%nat).
  - repeat constructor; simpl; discriminate.
  - simpl. lia.
Defined.

(** X6. When the pages served do not overlap, the postings come back in the
    order of the backend: the result is the mapping of the concatenated
    pages, record by record. *)
Theorem get_thread_postings_keeps_backend_order :
  forall (platform : Platform) (pages : list (list value)) (pids : list value)
         (ticker_id thread_id : ident) (fuel : nat),
    Forall (fun pg => pg <> []) pages ->
    Forall2 (fun p pid => p.["pid"] = Return pid /\ hashable pid = true)
      (List.concat pages) pids ->
    ForallOrdPairs (fun a b => key_eq a b = false) pids ->
    (List.length pages < fuel)%nat ->
    get_thread_postings
      (scripted (map (fun pg => Return (page_of pg)) (pages ++ [[]])))
      fuel ticker_id thread_id []
    = Some (mapM (posting_of thread_id) (List.concat pages),
            Postings ticker_id thread_id None
              :: map (fun pg => Postings ticker_id thread_id (cursor_of pg))
                   pages).
Proof.
  intros platform pages pids ticker_id thread_id fuel Hne HF Hd Hfuel.
  rewrite get_thread_postings_scripted; [|
    |exact Hfuel].
  - rewrite (remove_duplicates_distinct _ _ HF Hd). reflexivity.
  - clear Hd Hfuel. revert pids HF.
    induction Hne as [|pg pages Hpg _ IH]; intros pids HF; [constructor|].
    cbn [List.concat] in HF. apply Forall2_app_inv_l in HF.
    destruct HF as (p1 & p2 & H1 & H2 & ->).
    constructor; [|eapply IH; exact H2].
    split; [exact Hpg|]. unfold has_pid.
    destruct (exists_last Hpg) as (l' & x & ->). rewrite last_last.
    apply Forall2_app_inv_l in H1.
    destruct H1 as (q1 & q2 & _ & Hx & _).
    inversion Hx as [|? k ? ? [Hk _] _]; subst. rewrite Hk. reflexivity.
Qed.

Lemma get_thread_postings_keeps_backend_order_witness :
  exists trace,
    get_thread_postings (platform := utc_host)
      (scripted (map (fun pg => Return (page_of pg))
                   ([[ticker_record 1 "first"]; [ticker_record 2 "second"]]
                    ++ [[]])))
      3%nat (IdInt 2000) (IdInt 7) []
    = Some (mapM (posting_of (platform := utc_host) (IdInt 7))
              [ticker_record 1 "first"; ticker_record 2 "second"],
            trace).
Proof.
  eexists.
  apply (get_thread_postings_keeps_backend_order utc_host
           [[ticker_record 1 "first"]; [ticker_record 2 "second"]]
           [VInt 1; VInt 2] (IdInt 2000) (IdInt 7) 3%nat).
  - repeat constructor; discriminate.
  - repeat constructor.
  - repeat constructor.
  - simpl. lia.
Defined.

(** ** Flattening, continued *)

Lemma value_induction (P : value -> Prop) :
  P VNone -> (forall b, P (VBool b)) -> (forall n, P (VInt n)) ->
  (forall s, P (VStr s)) ->
  (forall l, Forall P l -> P (VList l)) ->
  (forall d, Forall (fun kv => P (snd kv)) d -> P (VDict d)) ->
  forall v, P v.
Proof.
  intros HN HB HI HS HL HD. fix IH 1.
  intros [|b|n|s|l|d]; [exact HN | apply HB | apply HI | apply HS | |].
  - apply HL. induction l as [|x l IHl]; constructor; [apply IH | exact IHl].
  - apply HD. induction d as [|[k x] d IHd]; constructor;
      [apply IH | exact IHd].
Qed.

Lemma subscript_Return_dict (e r : value) (k : string) :
  e.[k] = Return r -> exists d, e = VDict d /\ lookup k d = Some r.
Proof.
  unfold subscript, getitem. destruct e as [| | | | |d]; try discriminate.
  destruct (lookup k d) as [v|] eqn:E; [|discriminate].
  intros H. injection H as ->. eauto.
Qed.

Lemma lookup_In (k : string) (d : list (string * value)) (r : value) :
  lookup k d = Some r -> exists kv, In kv d /\ snd kv = r.
Proof.
  induction d as [|[k' v] d IH]; [discriminate|]. cbn [lookup].
  destruct (String.eqb k k').
  - intros H. injection H as ->. exists (k', r). split; [left|]; reflexivity.
  - intros H. destruct (IH H) as (kv & Hin & Hs). exists kv. split; [right|]; auto.
Qed.

(** What a successful flattening returns: only nodes it reaches, each with a
    ["replies"] entry that flattens in turn. *)
Lemma linearize_Return_sound (edges : value) :
  forall out, linearize edges = Return out ->
    (forall n, In n out -> reaches n edges) /\
    Forall (fun n => exists r sub,
                n.["replies"] = Return r /\ linearize r = Return sub) out.
Proof.
  set (ok := fun v : value =>
         forall out, linearize v = Return out ->
           (forall n, In n out -> reaches n v) /\
           Forall (fun n => exists r sub,
                       n.["replies"] = Return r /\ linearize r = Return sub)
             out).
  enough (H : ok edges /\
              forall d, edges = VDict d ->
                forall k r, lookup k d = Some r -> ok r) by apply H.
  induction edges as [|b|n|s|es IH|d IH] using value_induction;
    (split; [|try (intros ? H; discriminate H)]); unfold ok.
  - intros out H. discriminate H.
  - intros out H. discriminate H.
  - intros out H. discriminate H.
  - intros out H. destruct s; [|discriminate H]. injection H as <-.
    split; [intros n []|constructor].
  - intros out H. rewrite linearize_VList in H. inv_bind H. subst out.
    apply mapM_Forall2 in E.
    assert (Hsub : forall e t, In e es ->
               (r <- e.["replies"] ;; linearize r) = Return t ->
               exists r, e.["replies"] = Return r /\ linearize r = Return t /\
                         ok r).
    { intros e t He Ht. inv_bind Ht. exists a0.
      split; [exact E0|]. split; [exact Ht|].
      destruct (subscript_Return_dict _ _ _ E0) as (d & -> & Hl).
      rewrite Forall_forall in IH. destruct (IH _ He) as (_ & Hd).
      exact (Hd d eq_refl _ _ Hl). }
    split.
    + intros n Hn. apply in_app_or in Hn. destruct Hn as [Hn|Hn].
      * apply reaches_top. exact Hn.
      * apply in_concat in Hn. destruct Hn as (t & Ht & Hnt).
        destruct (Forall2_In_r _ _ _ _ E Ht) as (e & He & Het).
        destruct (Hsub e t He Het) as (r & Hr & Hlin & Hok).
        eapply reaches_deeper; eauto. apply (Hok t Hlin). exact Hnt.
    + apply Forall_app. split.
      * rewrite Forall_forall. intros e He.
        destruct (Forall2_In_l _ _ _ _ E He) as (t & _ & Het).
        destruct (Hsub e t He Het) as (r & Hr & Hlin & _). eauto.
      * rewrite Forall_forall. intros n Hn.
        apply in_concat in Hn. destruct Hn as (t & Ht & Hnt).
        destruct (Forall2_In_r _ _ _ _ E Ht) as (e & He & Het).
        destruct (Hsub e t He Het) as (r & Hr & Hlin & Hok).
        destruct (Hok t Hlin) as (_ & HF). rewrite Forall_forall in HF.
        apply HF. exact Hnt.
  - intros out H. destruct d; [|discriminate H]. injection H as <-.
    split; [intros n []|constructor].
  - intros d' Hd k r Hl. injection Hd as <-.
    destruct (lookup_In _ _ _ Hl) as (kv & Hin & <-).
    rewrite Forall_forall in IH. apply (IH kv Hin).
Qed.

Lemma linearize_Return_complete (edges n : value) :
  reaches n edges ->
  forall out, linearize edges = Return out -> In n out.
Proof.
  induction 1 as [es Hn|es e r He Hr _ IH]; intros out H;
    rewrite linearize_VList in H; inv_bind H; subst out.
  - apply in_or_app. left. exact Hn.
  - apply mapM_Forall2 in E.
    destruct (Forall2_In_l _ _ _ _ E He) as (t & Ht & Het).
    rewrite Hr in Het. cbn [bind] in Het.
    apply in_or_app. right. apply in_concat. exists t. split; [exact Ht|].
    apply IH. exact Het.
Qed.

(** X7. When [linearize] returns, it returns exactly the nodes it reaches
    through ["replies"], at any depth, and every one of them has a ["replies"]
    entry that could be flattened itself. *)
Theorem linearize_returns_reachable_nodes :
  forall (edges : value) (out : list value),
    linearize edges = Return out ->
    (forall n, In n out <-> reaches n edges) /\
    Forall (fun n => exists r sub,
                n.["replies"] = Return r /\ linearize r = Return sub) out.
Proof.
  intros edges out H.
  destruct (linearize_Return_sound edges out H) as (Hsound & Hwf).
  split; [|exact Hwf].
  intros n. split; [apply Hsound|].
  intros Hn. eapply linearize_Return_complete; eauto.
Qed.

Lemma linearize_returns_reachable_nodes_witness :
  Forall (fun n => exists r sub,
              n.["replies"] = Return r /\ linearize r = Return sub)
    (map node_value (siblings_first small_forest)).
Proof.
  apply (linearize_returns_reachable_nodes
           (VList (map node_value small_forest))
           (map node_value (siblings_first small_forest))).
  vm_compute. reflexivity.
Defined.

Lemma forum_backend_raw (roots : list value) :
  raw_postings_of
    (VDict [("data", VDict [("getForumRootPostings",
       VDict [("edges",
               VList (map (fun n => VDict [("node", n)]) roots))])])])
  = linearize (VList roots).
Proof.
  unfold raw_postings_of.
  change ((VDict [("data", VDict [("getForumRootPostings",
             VDict [("edges",
                     VList (map (fun n => VDict [("node", n)]) roots))])])]).["data"])
    with (Return (VDict [("getForumRootPostings",
             VDict [("edges",
                     VList (map (fun n => VDict [("node", n)]) roots))])])).
  cbn [bind].
  change ((VDict [("getForumRootPostings",
             VDict [("edges",
                     VList (map (fun n => VDict [("node", n)]) roots))])]).["getForumRootPostings"])
    with (Return (VDict [("edges",
                     VList (map (fun n => VDict [("node", n)]) roots))])).
  cbn [bind].
  change ((VDict [("edges",
             VList (map (fun n => VDict [("node", n)]) roots))]).["edges"])
    with (Return (VList (map (fun n => VDict [("node", n)]) roots))).
  cbn [bind iter].
  assert (E : mapM (fun e => e.["node"])
                (map (fun n => VDict [("node", n)]) roots) = Return roots).
  { induction roots as [|r roots IH]; [reflexivity|].
    cbn [map mapM]. rewrite IH. reflexivity. }
  rewrite E. reflexivity.
Qed.

(** X8. A reply tree that is cut off somewhere makes the whole forum
    operation fail: if any node the flattening reaches, at any depth, has no
    usable ["replies"] entry, [get_forum_postings] raises after its two
    requests and returns no posting at all, not even those of the complete
    threads. *)
Theorem get_forum_postings_fails_on_cut_off_tree :
  forall (platform : Platform) (roots : list value) (n : value)
         (article_id : ident),
    reaches n (VList roots) ->
    (exists e, n.["replies"] = Raise e) ->
    exists e,
      get_forum_postings (forum_backend roots) article_id []
      = (Raise e,
         [GetForumInfo article_id;
          ThreadsByForumQuery (VStr "forum-1") 100000 18]).
Proof.
  intros platform roots n article_id Hreach (e' & Hn).
  unfold get_forum_postings, _get_forum_id, cbind, http_get, lift.
  unfold forum_backend at 1. unfold scripted at 1. cbn [List.length nth_error].
  cbn [subscript getitem lookup String.eqb Ascii.eqb Bool.eqb bind app].
  unfold forum_backend, scripted. cbn [List.length nth_error].
  rewrite forum_backend_raw.
  destruct (linearize (VList roots)) as [out|e] eqn:E.
  - exfalso.
    destruct (linearize_Return_sound _ _ E) as (_ & Hwf).
    pose proof (linearize_Return_complete _ _ Hreach _ E) as Hin.
    rewrite Forall_forall in Hwf. destruct (Hwf n Hin) as (r & sub & Hr & _).
    congruence.
  - exists e. reflexivity.
Qed.

Lemma get_forum_postings_fails_on_cut_off_tree_witness :
  exists e,
    get_forum_postings (platform := utc_host)
      (forum_backend [thread_with_nested_reply; thread_cut_off]) (IdInt 1) []
    = (Raise e,
       [GetForumInfo (IdInt 1);
        ThreadsByForumQuery (VStr "forum-1") 100000 18]).
Proof.
  apply (get_forum_postings_fails_on_cut_off_tree utc_host
           [thread_with_nested_reply; thread_cut_off]
           (VDict [("id", VInt 42)]) (IdInt 1)).
  - eapply reaches_deeper; [right; left; reflexivity | reflexivity |].
    eapply reaches_deeper; [left; reflexivity | reflexivity |].
    apply reaches_top. left. reflexivity.
  - eexists. reflexivity.
Defined.

(** ** Ids given by the caller *)





(** ** The forum query *)

Lemma brace_depth_app (s1 s2 : string) :
  forall depth,
    brace_depth (s1 ++ s2) depth
    = match brace_depth s1 depth with
      | Some d => brace_depth s2 d
      | None => None
      end.
Proof.
  induction s1 as [|c s1 IH]; intros depth; [reflexivity|].
  cbn [String.append brace_depth].
  destruct (Ascii.eqb c "{"); [apply IH|].
  destruct (Ascii.eqb c "}"); [|apply IH].
  destruct depth; [reflexivity | apply IH].
Qed.

Lemma string_length_app (s1 s2 : string) :
  String.length (s1 ++ s2) = (String.length s1 + String.length s2)%nat.
Proof.
  induction s1 as [|c s1 IH]; [reflexivity|].
  cbn [String.append String.length]. rewrite IH. reflexivity.
Qed.

(** X11. The query text is well bracketed at every depth: [nodequery(n)]
    closes exactly the braces it opens, and so does the whole
    [ThreadsByForumQuery] document built around it.  Each level of replies
    adds 390 characters to the 2 of the innermost ["id"]. *)
Theorem nodequery_well_bracketed :
  (forall n depth, brace_depth (nodequery n) depth = Some depth)
  /\ (forall n, brace_depth (ThreadsByForumQuery_text (nodequery n)) 0 = Some O)
  /\ (forall n, String.length (nodequery n) = (2 + 390 * n)%nat).
Proof.
  assert (Hnode : forall n depth, brace_depth (nodequery n) depth = Some depth).
  { induction n as [|n IH]; intros depth; [reflexivity|].
    cbn [nodequery]. rewrite brace_depth_app.
    match goal with
    | |- match brace_depth ?head depth with _ => _ end = _ =>
        assert (Hhead : brace_depth head depth = Some (S depth))
          by (vm_compute; reflexivity)
    end.
    rewrite Hhead, brace_depth_app, IH. vm_compute. reflexivity. }
  split; [exact Hnode|]. split.
  - intros n. unfold ThreadsByForumQuery_text.
    rewrite brace_depth_app.
    match goal with
    | |- match brace_depth ?head O with _ => _ end = _ =>
        assert (Hhead : brace_depth head O = Some 4%nat)
          by (vm_compute; reflexivity)
    end.
    rewrite Hhead, brace_depth_app, Hnode. vm_compute. reflexivity.
  - induction n as [|n IH]; [reflexivity|].
    cbn [nodequery]. rewrite !string_length_app, IH.
    match goal with
    | |- (String.length ?head + (_ + String.length ?tail))%nat = _ =>
        assert (Hh : String.length head = 376%nat) by (vm_compute; reflexivity);
        assert (Ht : String.length tail = 14%nat) by (vm_compute; reflexivity)
    end.
    rewrite Hh, Ht. lia.
Qed.

(** ** Accepting terms and conditions *)

Section ConsentProperties.
Variable w : webdriver.

Lemma scan_buttons_Done (buttons : list nat) :
  forall log log' d,
    scan_buttons w buttons log = (Done (Some d), log') ->
    exists l2 button title jar,
      log' = log ++ l2 ++ [GetAttribute button "title"; Click button; GetCookies]
      /\ Forall (fun c => exists b, c = GetAttribute b "title") l2
      /\ get_attribute w (log ++ l2) button "title" = Some title
      /\ py_eq title (VStr "Einverstanden") = true
      /\ get_cookies w (log ++ l2 ++ [GetAttribute button "title"; Click button])
         = Some jar
      /\ cookie_dict jar [] = Return d.
Proof.
  induction buttons as [|button rest IH]; intros log log' d H.
  - discriminate H.
  - cbn [scan_buttons] in H. unfold abind, perform at 1 in H.
    destruct (get_attribute w log button "title") as [title|] eqn:Et;
      [|discriminate H].
    destruct (py_eq title (VStr "Einverstanden")) eqn:Ep.
    + unfold abind, perform, python, aret in H.
      destruct (click w (log ++ [GetAttribute button "title"]) button);
        [|discriminate H].
      destruct (get_cookies w
                  ((log ++ [GetAttribute button "title"]) ++ [Click button]))
        as [jar|] eqn:Ej; [|discriminate H].
      destruct (cookie_dict jar []) as [d'|e] eqn:Ed; [|discriminate H].
      injection H as <- <-.
      exists [], button, title, jar. cbn [app]. rewrite app_nil_r.
      repeat split; auto.
      * rewrite <- !app_assoc. reflexivity.
      * rewrite <- Ej. f_equal. rewrite <- !app_assoc. reflexivity.
    + destruct (IH _ _ _ H) as (l2 & b & t & jar & -> & Hl2 & Ht & Hp & Hj & Hd).
      exists (GetAttribute button "title" :: l2), b, t, jar.
      repeat split; auto.
      * rewrite <- !app_assoc. reflexivity.
      * constructor; [eauto | exact Hl2].
      * rewrite <- Ht. f_equal. rewrite <- !app_assoc. reflexivity.
      * rewrite <- Hj. f_equal. rewrite <- !app_assoc. reflexivity.
Qed.

Lemma scan_iframes_Done (elements : list nat) :
  forall log log' d,
    scan_iframes w elements log = (Done (Some d), log') -> accepted w log' d.
Proof.
  induction elements as [|el rest IH]; intros log log' d H.
  - discriminate H.
  - cbn [scan_iframes] in H. unfold abind at 1, perform at 1 in H.
    destruct (get_attribute w log el "title") as [title|] eqn:Et;
      [|discriminate H].
    unfold abind at 1 in H.
    destruct (py_eq title (VStr "SP Consent Message")) eqn:Ep.
    + unfold abind at 1 2, perform at 1 2 in H.
      destruct (switch_to_frame w (log ++ [GetAttribute el "title"]) el);
        [|discriminate H].
      destruct (find_elements w
                  ((log ++ [GetAttribute el "title"]) ++ [SwitchToFrame el])
                  "button") as [buttons|]; [|discriminate H].
      destruct (scan_buttons w buttons
                  (((log ++ [GetAttribute el "title"]) ++ [SwitchToFrame el])
                     ++ [FindElements "button"]))
        as [[[found|]|e] log1] eqn:Es; try discriminate H.
      * unfold aret in H. injection H as <- <-.
        destruct (scan_buttons_Done _ _ _ _ Es)
          as (l2 & b & t & jar & -> & Hl2 & Ht & Hp & Hj & Hd).
        exists log, l2, el, b, title, t, jar.
        repeat split; auto.
        -- rewrite <- !app_assoc. reflexivity.
        -- rewrite <- Ht. f_equal. rewrite <- !app_assoc. reflexivity.
        -- rewrite <- Hj. f_equal. rewrite <- !app_assoc. reflexivity.
      * unfold abind, sleep in H. eapply IH. exact H.
    + unfold aret at 1, abind, sleep in H. eapply IH. exact H.
Qed.

Lemma poll_Done (log log' : list call) (d : list (value * value)) :
  poll w log = (Done (Some d), log') -> accepted w log' d.
Proof.
  unfold poll, abind, perform.
  destruct (find_elements w log "iframe") as [els|]; [|discriminate].
  apply scan_iframes_Done.
Qed.

Lemma poll_for_Done (n : nat) :
  forall log log' d, poll_for w n log = (Done d, log') -> accepted w log' d.
Proof.
  induction n as [|n IH]; intros log log' d H; [discriminate H|].
  cbn [poll_for] in H. unfold abind at 1 in H.
  destruct (poll w log) as [[[found|]|e] log1] eqn:Ep; try discriminate H.
  - unfold aret in H. injection H as <- <-. eapply poll_Done; eauto.
  - eapply IH; eauto.
Qed.

Lemma poll_forever_Done (fuel : nat) :
  forall log log' d,
    poll_forever w fuel log = Some (Done d, log') -> accepted w log' d.
Proof.
  induction fuel as [|fuel IH]; intros log log' d H; [discriminate H|].
  cbn [poll_forever] in H.
  destruct (poll w log) as [[[found|]|e] log1] eqn:Ep; try discriminate H.
  - injection H as <- <-. eapply poll_Done; eauto.
  - eapply IH; eauto.
Qed.

(** No step of a round raises [TimeoutError]. *)
Lemma scan_buttons_no_timeout (buttons : list nat) :
  forall log log',
    scan_buttons w buttons log <> (Failed TimeoutError, log').
Proof.
  induction buttons as [|button rest IH]; intros log log' H; [discriminate H|].
  cbn [scan_buttons] in H. unfold abind, perform at 1 in H.
  destruct (get_attribute w log button "title") as [title|];
    [|discriminate H].
  destruct (py_eq title (VStr "Einverstanden")).
  - unfold abind, perform, python, aret in H.
    destruct (click w _ button); [|discriminate H].
    destruct (get_cookies w _); [|discriminate H].
    destruct (cookie_dict _ []); discriminate H.
  - eapply IH; eauto.
Qed.

Lemma scan_iframes_no_timeout (elements : list nat) :
  forall log log',
    scan_iframes w elements log <> (Failed TimeoutError, log').
Proof.
  induction elements as [|el rest IH]; intros log log' H; [discriminate H|].
  cbn [scan_iframes] in H. unfold abind at 1, perform at 1 in H.
  destruct (get_attribute w log el "title") as [title|]; [|discriminate H].
  unfold abind at 1 in H.
  destruct (py_eq title (VStr "SP Consent Message")).
  - unfold abind at 1 2, perform at 1 2 in H.
    destruct (switch_to_frame w _ el); [|discriminate H].
    destruct (find_elements w _ "button") as [buttons|]; [|discriminate H].
    destruct (scan_buttons w buttons _) as [[[found|]|e] log1] eqn:Es.
    + discriminate H.
    + unfold abind, sleep in H. eapply IH; eauto.
    + injection H as -> <-. eapply scan_buttons_no_timeout; eauto.
  - unfold aret at 1, abind, sleep in H. eapply IH; eauto.
Qed.

Lemma poll_no_timeout (log log' : list call) :
  poll w log <> (Failed TimeoutError, log').
Proof.
  unfold poll, abind, perform.
  destruct (find_elements w log "iframe") as [els|]; [|discriminate].
  apply scan_iframes_no_timeout.
Qed.

Lemma poll_forever_no_timeout (fuel : nat) :
  forall log log',
    poll_forever w fuel log <> Some (Failed TimeoutError, log').
Proof.
  induction fuel as [|fuel IH]; intros log log' H; [discriminate H|].
  cbn [poll_forever] in H.
  destruct (poll w log) as [[[found|]|e] log1] eqn:Ep.
  - discriminate H.
  - eapply IH; eauto.
  - injection H as -> <-. eapply poll_no_timeout; eauto.
Qed.

Lemma poll_forever_idle :
  (forall log, exists log', poll w log = (Done None, log')) ->
  forall fuel log, poll_forever w fuel log = None.
Proof.
  intros Hidle. induction fuel as [|fuel IH]; intros log; [reflexivity|].
  cbn [poll_forever]. destruct (Hidle log) as (log' & ->). apply IH.
Qed.

(** A round over frames none of which is the consent message. *)
Lemma scan_iframes_idle (frames : list nat) :
  (forall log el, In el frames ->
     exists title, get_attribute w log el "title" = Some title /\
                   py_eq title (VStr "SP Consent Message") = false) ->
  forall log,
    scan_iframes w frames log
    = (Done None,
       log ++ flat_map (fun el => [GetAttribute el "title"; Sleep 1]) frames).
Proof.
  induction frames as [|el rest IH]; intros Hattr log.
  - cbn. rewrite app_nil_r. reflexivity.
  - cbn [scan_iframes flat_map]. unfold abind at 1, perform at 1.
    destruct (Hattr log el (or_introl eq_refl)) as (title & -> & Hp).
    unfold abind at 1. rewrite Hp. unfold aret at 1, abind, sleep.
    rewrite IH.
    + rewrite <- !app_assoc. reflexivity.
    + intros log0 el0 Hin. apply Hattr. right. exact Hin.
Qed.

Lemma poll_for_idle (frames : list nat) :
  (forall log, find_elements w log "iframe" = Some frames) ->
  (forall log el, In el frames ->
     exists title, get_attribute w log el "title" = Some title /\
                   py_eq title (VStr "SP Consent Message") = false) ->
  forall n log,
    poll_for w n log
    = (Failed TimeoutError,
       log ++ List.concat (repeat (idle_round frames) n)).
Proof.
  intros Hfind Hattr. induction n as [|n IH]; intros log.
  - cbn. rewrite app_nil_r. reflexivity.
  - cbn [poll_for repeat List.concat]. unfold abind at 1, poll, abind, perform.
    rewrite Hfind, (scan_iframes_idle frames Hattr). rewrite IH.
    unfold idle_round. rewrite <- !app_assoc. reflexivity.
Qed.

End ConsentProperties.

(** X12. A timeout of zero or less gives up at once: after loading the
    consent page [_accept_conditions] raises [TimeoutError] without a single
    look at the page. *)
Theorem accept_conditions_nonpositive_timeout :
  forall (w : webdriver) (t : Z) (fuel : nat),
    t <= 0 -> - 2 ^ 52 < t ->
    driver_get w [] consent_url = Some tt ->
    _accept_conditions w (Some t) fuel
    = Some (Failed TimeoutError, [Get consent_url]).
Proof.
  intros w t fuel Ht _ Hget. unfold _accept_conditions, perform.
  rewrite Hget. cbn [app].
  replace (Z.to_nat t) with O by (destruct t; [reflexivity | lia | reflexivity]).
  reflexivity.
Qed.

Lemma accept_conditions_nonpositive_timeout_witness :
  _accept_conditions consent_page (Some 0) 0
  = Some (Failed TimeoutError, [Get consent_url]).
Proof.
  apply (accept_conditions_nonpositive_timeout consent_page 0 0).
  - lia.
  - reflexivity.
  - reflexivity.
Defined.

(** X13. [_accept_conditions] hands back cookies only after accepting: the
    log of such a run shows a frame recognised by the title "SP Consent
    Message" and entered, its buttons listed, and as last three calls the
    title "Einverstanden" read off a button, the click on that button and the
    fetch of the cookies, of which the result is the dict by name. *)
Theorem accept_conditions_clicks_before_cookies :
  forall (w : webdriver) (timeout : option Z) (fuel : nat)
         (d : list (value * value)) (log : list call),
    _accept_conditions w timeout fuel = Some (Done d, log) ->
    accepted w log d.
Proof.
  intros w timeout fuel d log. unfold _accept_conditions, perform.
  destruct (driver_get w [] consent_url); [|discriminate].
  destruct timeout as [t|].
  - intros H. injection H as H. eapply poll_for_Done; eauto.
  - apply poll_forever_Done.
Qed.

Lemma accept_conditions_clicks_before_cookies_witness :
  exists d log,
    _accept_conditions consent_page None 1 = Some (Done d, log) /\
    accepted consent_page log d.
Proof.
  eexists _, _. split; [vm_compute; reflexivity|].
  apply (accept_conditions_clicks_before_cookies consent_page None 1).
  vm_compute. reflexivity.
Defined.

(** X14. [update_cookies] runs without a timeout.  It never raises
    [TimeoutError]; when it fails the cookies of the client stay as they
    were, and when it succeeds they are the cookies of a run that accepted.
    While the page never shows the consent message it does not return at
    all. *)
Theorem update_cookies_has_no_timeout :
  forall (w : webdriver) (fuel : nat) (self : DerStandardAPI),
    (forall r self',
        update_cookies w fuel self = Some (r, self') ->
        r <> Failed TimeoutError /\
        (forall e, r = Failed e -> self' = self) /\
        (r = Done tt ->
         exists d log,
           _accept_conditions w None fuel = Some (Done d, log) /\
           _cookies self' = Some d /\ accepted w log d))
    /\ (driver_get w [] consent_url = Some tt ->
        (forall log, exists log', poll w log = (Done None, log')) ->
        update_cookies w fuel self = None).
Proof.
  intros w fuel self. split.
  - intros r self' H. unfold update_cookies in H.
    destruct (_accept_conditions w None fuel) as [[[d|e] log]|] eqn:Ea;
      [| |discriminate H]; injection H as <- <-.
    + split; [discriminate|]. split; [discriminate|]. intros _.
      exists d, log. repeat split.
      unfold _accept_conditions, perform in Ea.
      destruct (driver_get w [] consent_url); [|discriminate Ea].
      eapply poll_forever_Done; eauto.
    + split; [|split; [reflexivity | discriminate]].
      intros He. injection He as ->.
      unfold _accept_conditions, perform in Ea.
      destruct (driver_get w [] consent_url); [|discriminate Ea].
      eapply poll_forever_no_timeout; eauto.
  - intros Hget Hidle. unfold update_cookies, _accept_conditions, perform.
    rewrite Hget, (poll_forever_idle w Hidle). reflexivity.
Qed.

Lemma update_cookies_has_no_timeout_witness :
  update_cookies (page_without_consent [3%nat]) 5 __init__ = None.
Proof.
  apply (proj2 (update_cookies_has_no_timeout (page_without_consent [3%nat])
                  5 __init__)).
  - reflexivity.
  - intros log. eexists. reflexivity.
Defined.

(** X15. The timeout counts rounds, not seconds, and a round sleeps once per
    frame on the page.  On a page that always shows the same frames, none of
    them the consent message, a timeout [t] ends in [TimeoutError] after
    exactly [t] looks for frames and [t] times the number of frames sleeps of
    a second: with no frame on the page, without any sleep. *)
Theorem accept_conditions_timeout_counts_rounds :
  forall (w : webdriver) (frames : list nat) (t : Z) (fuel : nat),
    Z.abs t < 2 ^ 52 ->
    driver_get w [] consent_url = Some tt ->
    (forall log, find_elements w log "iframe" = Some frames) ->
    (forall log el, In el frames ->
       exists title, get_attribute w log el "title" = Some title /\
                     py_eq title (VStr "SP Consent Message") = false) ->
    exists log,
      _accept_conditions w (Some t) fuel = Some (Failed TimeoutError, log) /\
      log = Get consent_url
              :: List.concat (repeat (idle_round frames) (Z.to_nat t)) /\
      List.length (filter is_sleep log)
      = (List.length frames * Z.to_nat t)%nat.
Proof.
  intros w frames t fuel _ Hget Hfind Hattr.
  eexists. split; [|split; [reflexivity|]].
  - unfold _accept_conditions, perform. rewrite Hget.
    rewrite (poll_for_idle w frames Hfind Hattr). reflexivity.
  - cbn [filter is_sleep].
    assert (Hround : List.length (filter is_sleep (idle_round frames))
                     = List.length frames).
    { unfold idle_round. cbn [filter is_sleep]. clear.
      induction frames as [|el rest IH]; [reflexivity|].
      cbn [flat_map app filter is_sleep List.length]. rewrite IH. reflexivity. }
    induction (Z.to_nat t) as [|n IH]; [cbn; lia|].
    cbn [repeat List.concat]. rewrite filter_app, length_app, Hround, IH. lia.
Qed.

Lemma accept_conditions_timeout_counts_rounds_witness :
  exists log,
    _accept_conditions (page_without_consent []) (Some 3) 0
    = Some (Failed TimeoutError, log) /\
    log = Get consent_url :: List.concat (repeat (idle_round []) (Z.to_nat 3)) /\
    List.length (filter is_sleep log) = (List.length (@nil nat) * Z.to_nat 3)%nat.
Proof.
  apply (accept_conditions_timeout_counts_rounds (page_without_consent [])
           [] 3 0).
  - reflexivity.
  - reflexivity.
  - intros log. reflexivity.
  - intros log el [].
Defined.

(** ** Requests *)

(** X16. [get_forum_postings] asks at most twice: first for the forum of the
    article, and, only when that answer yields a forum id, for the threads of
    exactly that forum (100000 of them, replies 18 levels deep).  When the
    lookup fails there is no second request and the failure is the result. *)
Theorem get_forum_postings_requests :
  forall (platform : Platform) (b : backend) (article_id : ident)
         (log log' : list request) (r : result (list Posting)),
    get_forum_postings b article_id log = (r, log') ->
    (exists e,
        (info <- b log (GetForumInfo article_id) ;;
         data <- info.["data"] ;;
         forum <- data.["getForumByContextUri"] ;;
         forum.["id"]) = Raise e /\
        r = Raise e /\ log' = log ++ [GetForumInfo article_id])
    \/ (exists forum_id,
          (info <- b log (GetForumInfo article_id) ;;
           data <- info.["data"] ;;
           forum <- data.["getForumByContextUri"] ;;
           forum.["id"]) = Return forum_id /\
          log' = log ++ [GetForumInfo article_id;
                         ThreadsByForumQuery forum_id 100000 18]).
Proof.
  intros platform b article_id log log' r.
  unfold get_forum_postings, _get_forum_id, cbind, http_get, lift.
  destruct (b log (GetForumInfo article_id)) as [info|e]; cbn [bind].
  - destruct (data <- info.["data"] ;;
              forum <- data.["getForumByContextUri"] ;; forum.["id"])
      as [forum_id|e].
    + intros H. right. exists forum_id. split; [reflexivity|].
      destruct (b _ (ThreadsByForumQuery forum_id 100000 18));
        injection H as _ <-; rewrite <- app_assoc; reflexivity.
    + intros H. injection H as <- <-. left. exists e. auto.
  - intros H. injection H as <- <-. left. exists e. auto.
Qed.

Lemma get_forum_postings_requests_witness :
  exists forum_id,
    (info <- forum_backend [thread_with_nested_reply] [] (GetForumInfo (IdInt 1)) ;;
     data <- info.["data"] ;;
     forum <- data.["getForumByContextUri"] ;;
     forum.["id"]) = Return forum_id /\
    snd (get_forum_postings (platform := utc_host)
           (forum_backend [thread_with_nested_reply]) (IdInt 1) [])
    = [] ++ [GetForumInfo (IdInt 1); ThreadsByForumQuery forum_id 100000 18].
Proof.
  destruct (get_forum_postings_requests utc_host
              (forum_backend [thread_with_nested_reply]) (IdInt 1) []
              (snd (get_forum_postings (platform := utc_host)
                      (forum_backend [thread_with_nested_reply]) (IdInt 1) []))
              (fst (get_forum_postings (platform := utc_host)
                      (forum_backend [thread_with_nested_reply]) (IdInt 1) [])))
    as [(e & He & _)|(forum_id & Hid & Hlog)].
  - destruct (get_forum_postings _ _ _). reflexivity.
  - vm_compute in He. discriminate He.
  - exists forum_id. split; [exact Hid | exact Hlog].
Defined.

Section StuckPaging.
Context {platform : Platform}.

Lemma while_same_page (b : backend) (ticker_id thread_id : ident)
  (pg : list value) :
  pg <> [] -> has_pid (last pg VNone) = true ->
  (forall log,
     b log (Postings ticker_id thread_id (cursor_of pg)) = Return (page_of pg)) ->
  forall (fuel : nat) (acc : list value) (log : list request),
    while fuel (next_page b ticker_id thread_id) (acc, page_of pg) log = None.
Proof.
  intros Hne Hpid Hb. induction fuel as [|fuel IH]; intros acc log;
    [reflexivity|].
  cbn [while]. rewrite (next_page_round _ _ _ _ _ _ Hne Hpid), Hb. apply IH.
Qed.

End StuckPaging.

(** X17. A cursor that is false is not sent, so the paging starts over: when
    the first page is not empty and its last posting has an id such as 0 or
    the empty string, the next request is the first request again, and
    against a backend that answers a request by its content alone
    [get_thread_postings] never returns. *)
Theorem false_cursor_restarts_paging :
  forall (platform : Platform) (answer : request -> result value)
         (ticker_id thread_id : ident) (pg : list value) (pid : value),
    pg <> [] ->
    (last pg VNone).["pid"] = Return pid -> truthy pid = false ->
    answer (Postings ticker_id thread_id None) = Return (page_of pg) ->
    cursor_of pg = None /\
    forall fuel,
      get_thread_postings (fun _ r => answer r) fuel ticker_id thread_id []
      = None.
Proof.
  intros platform answer ticker_id thread_id pg pid Hne Hpid Hfalse Hans.
  assert (Hcur : cursor_of pg = None).
  { unfold cursor_of. cbn [getitem]. rewrite (index_last pg VNone Hne).
    cbn [bind]. rewrite Hpid, Hfalse. reflexivity. }
  split; [exact Hcur|]. intros fuel.
  unfold get_thread_postings, fetch_pages, _get_thread_postings_page, http_get.
  cbn [truthy]. rewrite Hans.
  rewrite while_same_page; [reflexivity | exact Hne | |].
  - unfold has_pid. rewrite Hpid. reflexivity.
  - intros log. rewrite Hcur. exact Hans.
Qed.

Lemma false_cursor_restarts_paging_witness :
  get_thread_postings (platform := utc_host)
    (fun _ _ => Return (page_of page_ending_in_zero)) 5%nat
    (IdInt 2000) (IdInt 7) [] = None.
Proof.
  apply (proj2 (false_cursor_restarts_paging utc_host
                  (fun _ => Return (page_of page_ending_in_zero))
                  (IdInt 2000) (IdInt 7) page_ending_in_zero (VInt 0)
                  ltac:(discriminate) eq_refl eq_refl eq_refl)).
Defined.

(** ** When the forum operation succeeds *)

Lemma filterMapM_total {A B : Type} (c : A -> result bool) (f : A -> result B)
  (xs : list A) :
  Forall (fun x => exists keep, c x = Return keep /\
                     (keep = true -> exists y, f x = Return y)) xs ->
  exists ys, filterMapM c f xs = Return ys.
Proof.
  induction 1 as [|x xs (keep & Hc & Hf) _ (ys & IH)].
  - exists []. reflexivity.
  - cbn [filterMapM]. rewrite Hc. cbn [bind]. destruct keep.
    + destruct (Hf eq_refl) as (y & ->). cbn [bind]. rewrite IH.
      eexists. reflexivity.
    + exists ys. exact IH.
Qed.

(** X18. [get_forum_postings] returns a list exactly when the reply trees
    flatten, every flattened node has a [lifecycleStatus], and every
    published node has what its posting needs.  A node that is not published
    is never mapped: whatever else it lacks cannot make the operation fail. *)
Theorem get_forum_postings_succeeds_iff :
  forall (platform : Platform) (roots : list value) (article_id : ident),
    (exists qs log',
        get_forum_postings (forum_backend roots) article_id []
        = (Return qs, log'))
    <->
    (exists raw,
        linearize (VList roots) = Return raw /\
        Forall (fun p => exists status, p.["lifecycleStatus"] = Return status)
          raw /\
        Forall (fun p => lifecycle_published p = true ->
                         exists q, forum_posting_of p = Return q) raw).
Proof.
  intros platform roots article_id.
  assert (Hrun : get_forum_postings (forum_backend roots) article_id []
                 = (raw <- linearize (VList roots) ;;
                    filterMapM is_published forum_posting_of raw,
                    [GetForumInfo article_id;
                     ThreadsByForumQuery (VStr "forum-1") 100000 18])).
  { unfold get_forum_postings, _get_forum_id, cbind, http_get, lift.
    unfold forum_backend at 1. unfold scripted at 1.
    cbn [List.length nth_error].
    cbn [subscript getitem lookup String.eqb Ascii.eqb Bool.eqb bind app].
    unfold forum_backend, scripted. cbn [List.length nth_error].
    rewrite forum_backend_raw. reflexivity. }
  rewrite Hrun. split.
  - intros (qs & log' & H).
    destruct (linearize (VList roots)) as [raw|e] eqn:Hlin; cbn [bind] in H;
      [|discriminate H].
    apply (f_equal fst) in H. cbn [fst] in H.
    exists raw. split; [reflexivity|].
    apply filterMapM_Return in H. destruct H as (keep & Hkeep & Hmap).
    rewrite Forall_forall in Hkeep. split.
    + rewrite Forall_forall. intros p Hp. specialize (Hkeep p Hp).
      unfold is_published in Hkeep.
      destruct (p.["lifecycleStatus"]) as [st|]; [eauto | discriminate].
    + rewrite Forall_forall. intros p Hp Hpub.
      apply mapM_Forall2 in Hmap.
      assert (Hk : keep p = true).
      { specialize (Hkeep p Hp). unfold is_published in Hkeep.
        unfold lifecycle_published in Hpub.
        destruct (p.["lifecycleStatus"]) as [st|]; [|discriminate].
        cbn [bind] in Hkeep. congruence. }
      assert (Hin : In p (filter keep raw)) by (apply filter_In; auto).
      destruct (Forall2_In_l _ _ _ _ Hmap Hin) as (q & _ & Hq). eauto.
  - intros (raw & Hlin & Hstatus & Hmap). rewrite Hlin. cbn [bind].
    destruct (filterMapM_total is_published forum_posting_of raw) as (ys & Hys).
    + rewrite Forall_forall in *. intros p Hp.
      destruct (Hstatus p Hp) as (st & Hst). specialize (Hmap p Hp).
      unfold is_published. unfold lifecycle_published in Hmap.
      rewrite Hst in *. cbn [bind]. eauto.
    + rewrite Hys. eauto.
Qed.

Lemma get_forum_postings_succeeds_iff_witness :
  exists raw,
    linearize (VList [thread_with_deleted_reply]) = Return raw /\
    Forall (fun p => exists status, p.["lifecycleStatus"] = Return status)
      raw /\
    Forall (fun p => lifecycle_published p = true ->
                     exists q, forum_posting_of (platform := utc_host) p
                               = Return q) raw.
Proof.
  apply (proj1 (get_forum_postings_succeeds_iff utc_host
                  [thread_with_deleted_reply] (IdInt 1))).
  eexists _, _. vm_compute. reflexivity.
Defined.
